(** * Chat application backend (server.js): model and verified properties

    The backend is a set of Express route handlers.  Every handler builds one
    or more queries with the store client's query builder, awaits them, and
    shapes an HTTP response from the [{data, error}] result.

    The development has three layers:
    - the relational store the client talks to (tables, filters, ordering,
      row limits, [single], relational expansion), executable;
    - a small state-and-exception monad for [async] handlers: the state is
      the client (tables, journal of issued queries, fault oracle), an
      exception is a rejected promise;
    - the route handlers, written after server.js line by line. *)

From Stdlib Require Import List String Ascii ZArith Bool Arith Lia.
From Stdlib Require Import Permutation Sorted.
Import ListNotations.
Local Open Scope string_scope.
Local Open Scope list_scope.

Set Implicit Arguments.

(** ** Stored rows *)

(** Identifiers are opaque; they travel as JSON strings and the handlers
    compare them with [!==] against request parameters, which are strings. *)
Definition ident := string.
Definition timestamp := Z.

Record user_row := { u_id : ident; u_username : string }.
Record chat_row := { c_id : ident; c_name : option string }.
Record link_row := { l_user_id : ident; l_chat_id : ident }.
Record message_row :=
  { m_id : ident; m_chat_id : ident; m_sender_id : ident;
    m_body : string; m_created_at : timestamp }.

Record database :=
  { users_rows : list user_row;
    chats_rows : list chat_row;
    user_chats_rows : list link_row;
    messages_rows : list message_row }.

Inductive table := Users | Chats | UserChats | Messages.

Definition table_name (t : table) : string :=
  match t with
  | Users => "users"
  | Chats => "chats"
  | UserChats => "user_chats"
  | Messages => "messages"
  end.

Definition row (t : table) : Type :=
  match t with
  | Users => user_row
  | Chats => chat_row
  | UserChats => link_row
  | Messages => message_row
  end.

Definition rows_of (t : table) (d : database) : list (row t) :=
  match t with
  | Users => users_rows d
  | Chats => chats_rows d
  | UserChats => user_chats_rows d
  | Messages => messages_rows d
  end.

(** Column values as the store compares them. *)
Inductive value := VNull | VStr (s : string) | VNum (n : Z).

Definition value_eqb (a b : value) : bool :=
  match a, b with
  | VNull, VNull => true
  | VStr s, VStr t => String.eqb s t
  | VNum x, VNum y => Z.eqb x y
  | _, _ => false
  end.

(** Ascending order of the store: numbers, then text, nulls last. *)
Definition value_leb (a b : value) : bool :=
  match a, b with
  | VNum x, VNum y => Z.leb x y
  | VNum _, _ => true
  | VStr _, VNum _ => false
  | VStr s, VStr t => String.leb s t
  | VStr _, VNull => true
  | VNull, VNull => true
  | VNull, _ => false
  end.

Definition opt_value (o : option string) : value :=
  match o with Some s => VStr s | None => VNull end.

Definition column (t : table) : row t -> string -> value :=
  match t return row t -> string -> value with
  | Users => fun r c =>
      if c =? "id" then VStr (u_id r)
      else if c =? "username" then VStr (u_username r)
      else VNull
  | Chats => fun r c =>
      if c =? "id" then VStr (c_id r)
      else if c =? "name" then opt_value (c_name r)
      else VNull
  | UserChats => fun r c =>
      if c =? "user_id" then VStr (l_user_id r)
      else if c =? "chat_id" then VStr (l_chat_id r)
      else VNull
  | Messages => fun r c =>
      if c =? "id" then VStr (m_id r)
      else if c =? "chat_id" then VStr (m_chat_id r)
      else if c =? "sender_id" then VStr (m_sender_id r)
      else if c =? "body" then VStr (m_body r)
      else if c =? "created_at" then VNum (m_created_at r)
      else VNull
  end.

(** ** Query builder

    A query is the record the builder chain accumulates:
    [supabase.from(t).select(cols).eq(c, v).order(c, {ascending}).limit(n)]. *)

Inductive cond :=
| Eq (col : string) (v : string)
| In_ (col : string) (vs : list string).

Record query :=
  { q_table : table;
    q_insert : option (list (string * string));
    q_select : string;
    q_filters : list cond;
    q_order : option (string * bool);
    q_limit : option nat;
    q_single : bool }.

Definition from (t : table) : query :=
  {| q_table := t; q_insert := None; q_select := "*"; q_filters := [];
     q_order := None; q_limit := None; q_single := false |}.

Definition insert (fields : list (string * string)) (q : query) : query :=
  {| q_table := q_table q; q_insert := Some fields; q_select := q_select q;
     q_filters := q_filters q; q_order := q_order q; q_limit := q_limit q;
     q_single := q_single q |}.

Definition select (cols : string) (q : query) : query :=
  {| q_table := q_table q; q_insert := q_insert q; q_select := cols;
     q_filters := q_filters q; q_order := q_order q; q_limit := q_limit q;
     q_single := q_single q |}.

Definition eq_ (col v : string) (q : query) : query :=
  {| q_table := q_table q; q_insert := q_insert q; q_select := q_select q;
     q_filters := q_filters q ++ [Eq col v]; q_order := q_order q;
     q_limit := q_limit q; q_single := q_single q |}.

Definition in_ (col : string) (vs : list string) (q : query) : query :=
  {| q_table := q_table q; q_insert := q_insert q; q_select := q_select q;
     q_filters := q_filters q ++ [In_ col vs]; q_order := q_order q;
     q_limit := q_limit q; q_single := q_single q |}.

Definition order (col : string) (ascending : bool) (q : query) : query :=
  {| q_table := q_table q; q_insert := q_insert q; q_select := q_select q;
     q_filters := q_filters q; q_order := Some (col, ascending);
     q_limit := q_limit q; q_single := q_single q |}.

Definition limit (n : nat) (q : query) : query :=
  {| q_table := q_table q; q_insert := q_insert q; q_select := q_select q;
     q_filters := q_filters q; q_order := q_order q; q_limit := Some n;
     q_single := q_single q |}.

Definition single (q : query) : query :=
  {| q_table := q_table q; q_insert := q_insert q; q_select := q_select q;
     q_filters := q_filters q; q_order := q_order q; q_limit := q_limit q;
     q_single := true |}.

Notation "q '|>' f" := (f q) (at level 45, left associativity, only parsing).

(** ** Query evaluation *)

Section Engine.
Variable t : table.

Definition sat (r : row t) (f : cond) : bool :=
  match f with
  | Eq c v => value_eqb (column t r c) (VStr v)
  | In_ c vs => existsb (fun v => value_eqb (column t r c) (VStr v)) vs
  end.

Definition matching (fs : list cond) (rows : list (row t)) : list (row t) :=
  List.filter (fun r => forallb (sat r) fs) rows.

Definition key_leb (c : string) (ascending : bool) (a b : row t) : bool :=
  if ascending then value_leb (column t a c) (column t b c)
  else value_leb (column t b c) (column t a c).

(** Stable insertion: [x] goes in front of the first row it does not
    exceed. *)
Fixpoint place (leb : row t -> row t -> bool) (x : row t) (l : list (row t))
  : list (row t) :=
  match l with
  | [] => [x]
  | y :: l' => if leb x y then x :: y :: l' else y :: place leb x l'
  end.

Definition sort_by (leb : row t -> row t -> bool) (rows : list (row t))
  : list (row t) :=
  fold_right (place leb) [] rows.

Definition ordered (o : option (string * bool)) (rows : list (row t))
  : list (row t) :=
  match o with
  | None => rows
  | Some (c, ascending) => sort_by (key_leb c ascending) rows
  end.

Definition limited (n : option nat) (rows : list (row t)) : list (row t) :=
  match n with
  | None => rows
  | Some k => firstn k rows
  end.

End Engine.

Definition run_select (q : query) (d : database) : list (row (q_table q)) :=
  limited (q_table q) (q_limit q)
    (ordered (q_table q) (q_order q)
       (matching (q_table q) (q_filters q) (rows_of (q_table q) d))).

(** ** Response shapes

    One record per projection written in a [select] string; fields keep the
    JSON keys. *)

Module User.
Record t := { id : ident; username : string }.
End User.

Module Link.
Record t := { chat_id : ident }.
End Link.

Module Participant.
(** [user_chats(user:users(id, username))]: the joined user, or [null] when
    the membership row references no user. *)
Record t := { user : option User.t }.
End Participant.

Module Chat.
Record t := { id : ident; name : option string; participants : list Participant.t }.
End Chat.

Module LastMessageData.
Record t := { body : string; created_at : timestamp }.
End LastMessageData.

Module Sender.
Record t := { username : string }.
End Sender.

Module Message.
Record t :=
  { id : ident; body : string; created_at : timestamp; sender_id : ident;
    sender : option Sender.t }.
End Message.

Module LastMessage.
Record t := { body : string; timestamp : timestamp }.
End LastMessage.

Module ChatSummary.
Record t :=
  { id : ident; name : string; participants : list Participant.t;
    lastMessage : option LastMessage.t }.
End ChatSummary.

(** [select('id, username')] on users. *)
Definition user_columns (d : database) (r : user_row) : User.t :=
  {| User.id := u_id r; User.username := u_username r |}.

(** [select('chat_id')] on user_chats. *)
Definition link_columns (d : database) (r : link_row) : Link.t :=
  {| Link.chat_id := l_chat_id r |}.

(** The users row a foreign key points at. *)
Definition find_user (d : database) (uid : ident) : option user_row :=
  find (fun u => u_id u =? uid) (users_rows d).

(** [participants:user_chats(user:users(id, username))]: the membership rows
    of the chat, each with its user embedded. *)
Definition participants_of (d : database) (cid : ident) : list Participant.t :=
  map (fun l => {| Participant.user :=
                     option_map (user_columns d) (find_user d (l_user_id l)) |})
      (List.filter (fun l => l_chat_id l =? cid) (user_chats_rows d)).

(** [select('id, name, participants:user_chats(user:users(id, username))')]
    on chats. *)
Definition chat_columns (d : database) (r : chat_row) : Chat.t :=
  {| Chat.id := c_id r; Chat.name := c_name r;
     Chat.participants := participants_of d (c_id r) |}.

(** [select('body, created_at')] on messages. *)
Definition last_columns (d : database) (r : message_row) : LastMessageData.t :=
  {| LastMessageData.body := m_body r;
     LastMessageData.created_at := m_created_at r |}.

(** [select('id, body, created_at, sender_id, sender:users(username)')] on
    messages. *)
Definition message_columns (d : database) (r : message_row) : Message.t :=
  {| Message.id := m_id r; Message.body := m_body r;
     Message.created_at := m_created_at r; Message.sender_id := m_sender_id r;
     Message.sender :=
       option_map (fun u => {| Sender.username := u_username u |})
                  (find_user d (m_sender_id r)) |}.

(** ** The client: results, faults, journal *)

Record pg_error := { message : string; code : string }.

Record pg_result (A : Type) := { data : option A; error : option pg_error }.
Arguments data {A} _.
Arguments error {A} _.

(** What a handler can throw or a promise can reject with. *)
Inductive thrown :=
| StoreError (e : pg_error)
| TypeError (msg : string)
| OtherError (msg : string).

Definition thrown_message (x : thrown) : string :=
  match x with
  | StoreError e => message e
  | TypeError msg => msg
  | OtherError msg => msg
  end.

(** The ways a query goes wrong here: it resolves with an error result, or
    its promise rejects.  A resolution with neither data nor error is not
    among them. *)
Inductive fault :=
| Fail (e : pg_error)
| Reject (x : thrown).

(** The client state.  [oracle n q] decides whether the [n]-th query issued so
    far, [q], is answered from the tables or hits a fault; [idgen] supplies
    the ids the store generates on insert. *)
Record client :=
  { tables : database;
    journal : list query;
    oracle : nat -> query -> option fault;
    idgen : nat -> ident }.

Definition with_journal (s : client) (j : list query) : client :=
  {| tables := tables s; journal := j; oracle := oracle s; idgen := idgen s |}.

Definition with_tables (s : client) (d : database) : client :=
  {| tables := d; journal := journal s; oracle := oracle s; idgen := idgen s |}.

Definition issued (q : query) (s : client) : client :=
  with_journal s (journal s ++ [q]).

(** ** Asynchronous computations *)

Inductive outcome (A : Type) :=
| Done (a : A)
| Thrown (x : thrown).
Arguments Done {A} a.
Arguments Thrown {A} x.

Definition async (A : Type) : Type := client -> outcome A * client.

Definition ret {A} (a : A) : async A := fun s => (Done a, s).

Definition throw {A} (x : thrown) : async A := fun s => (Thrown x, s).

Definition bind {A B} (m : async A) (k : A -> async B) : async B :=
  fun s =>
    match m s with
    | (Done a, s') => k a s'
    | (Thrown x, s') => (Thrown x, s')
    end.

Definition try_catch {A} (m : async A) (handler : thrown -> async A) : async A :=
  fun s =>
    match m s with
    | (Done a, s') => (Done a, s')
    | (Thrown x, s') => handler x s'
    end.

Notation "x <- m ;; k" := (bind m (fun x => k))
  (at level 61, m at next level, right associativity).

(** [Promise.all(tasks)]: every task is started (each issues its query), the
    result is the list of values, or a rejection as soon as one task rejects.
    Which rejection wins depends on arrival order; the model reports the one
    of the earliest task in the list. *)
Fixpoint promise_all {A} (tasks : list (async A)) : async (list A) :=
  fun s =>
    match tasks with
    | [] => (Done [], s)
    | task :: rest =>
        let (r, s1) := task s in
        let (rs, s2) := promise_all rest s1 in
        (match r, rs with
         | Done a, Done l => Done (a :: l)
         | Thrown x, _ => Thrown x
         | Done _, Thrown x => Thrown x
         end, s2)
    end.

(** [array.map(f)] with a callback that may throw. *)
Fixpoint map_throwing {A B} (f : A -> outcome B) (l : list A) : outcome (list B) :=
  match l with
  | [] => Done []
  | a :: l' =>
      match f a with
      | Thrown x => Thrown x
      | Done b =>
          match map_throwing f l' with
          | Thrown x => Thrown x
          | Done bs => Done (b :: bs)
          end
      end
  end.

Definition lift {A} (o : outcome A) : async A := fun s => (o, s).

(** ** Awaiting a query *)

Definition no_rows : pg_error :=
  {| message := "JSON object requested, multiple (or no) rows returned";
     code := "PGRST116" |}.

(** [await query]: a list of rows, projected by the select clause. *)
Definition await_rows (q : query) {V} (cols : database -> row (q_table q) -> V)
  : async (pg_result (list V)) :=
  fun s =>
    match oracle s (List.length (journal s)) q with
    | Some (Reject x) => (Thrown x, issued q s)
    | Some (Fail e) => (Done {| data := None; error := Some e |}, issued q s)
    | None =>
        (Done {| data := Some (map (cols (tables s)) (run_select q (tables s)));
                 error := None |}, issued q s)
    end.

(** [.single()]: the row when the query yields exactly one, otherwise no
    data and the error coded PGRST116, the code POST /api/login tests for to
    recognise a user that does not exist. *)
Definition as_single {V} (l : list V) : pg_result V :=
  match l with
  | [v] => {| data := Some v; error := None |}
  | _ => {| data := None; error := Some no_rows |}
  end.

(** [await query.single()]. *)
Definition await_single (q : query) {V} (cols : database -> row (q_table q) -> V)
  : async (pg_result V) :=
  fun s =>
    let q' := single q in
    match oracle s (List.length (journal s)) q' with
    | Some (Reject x) => (Thrown x, issued q' s)
    | Some (Fail e) => (Done {| data := None; error := Some e |}, issued q' s)
    | None =>
        (Done (as_single (map (cols (tables s)) (run_select q (tables s)))),
         issued q' s)
    end.

(** Insert: the store fills in the generated columns. *)
Definition field (fields : list (string * string)) (c : string) : string :=
  match find (fun p => fst p =? c) fields with
  | Some p => snd p
  | None => ""
  end.

Definition new_user (fresh : ident) (fields : list (string * string)) : user_row :=
  {| u_id := fresh; u_username := field fields "username" |}.

Definition add_user (r : user_row) (d : database) : database :=
  {| users_rows := users_rows d ++ [r]; chats_rows := chats_rows d;
     user_chats_rows := user_chats_rows d; messages_rows := messages_rows d |}.

(** [await supabase.from('users').insert([fields]).select(cols).single()]. *)
Definition await_insert_user (fields : list (string * string)) (cols : string)
  : async (pg_result User.t) :=
  fun s =>
    let q := from Users |> insert fields |> select cols |> single in
    match oracle s (List.length (journal s)) q with
    | Some (Reject x) => (Thrown x, issued q s)
    | Some (Fail e) => (Done {| data := None; error := Some e |}, issued q s)
    | None =>
        let r := new_user (idgen s (List.length (journal s))) fields in
        let d := add_user r (tables s) in
        (Done {| data := Some (user_columns d r); error := None |},
         issued q (with_tables s d))
    end.

(** ** HTTP responses *)

Inductive json :=
| JNull
| JError (msg : string)
| JUser (u : User.t)
| JUsers (l : list User.t)
| JChat (c : Chat.t)
| JChats (l : list ChatSummary.t)
| JMessage (m : Message.t)
| JMessages (l : list Message.t).

Record response := { status : nat; body : json }.

(** [res.status(code).json(payload)] *)
Definition res_json (code : nat) (payload : json) : response :=
  {| status := code; body := payload |}.

(** A payload that may be [null]. *)
Definition nullable {A} (f : A -> json) (o : option A) : json :=
  match o with
  | Some a => f a
  | None => JNull
  end.

(** ** Route handlers *)

Definition chat_select : string :=
  "id, name, participants:user_chats(user:users(id, username))".

Definition message_select : string :=
  "id, body, created_at, sender_id, sender:users(username)".

(** GET /api/users *)
Definition get_api_users : async response :=
  r <- await_rows (from Users |> select "id, username") user_columns ;;
  match error r with
  | Some err => ret (res_json 500 (JError (message err)))
  | None => ret (res_json 200 (nullable JUsers (data r)))
  end.

Definition login_query (username : string) : query :=
  from Users |> select "id, username" |> eq_ "username" username.

(** POST /api/login.  [username] is [req.body.username]; [!username] holds
    when it is missing or empty. *)
Definition post_api_login (username : option string) : async response :=
  match username with
  | None | Some EmptyString =>
      ret (res_json 400 (JError "Username is required"))
  | Some username =>
      r <- await_single (login_query username) user_columns ;;
      let user := data r in
      match error r with
      | Some err =>
          if code err =? "PGRST116" then
            r' <- await_insert_user [("username", username)] "id, username" ;;
            let newUser := data r' in
            match error r' with
            | Some newUserError =>
                ret (res_json 500 (JError (message newUserError)))
            | None => ret (res_json 200 (nullable JUser newUser))
            end
          else ret (res_json 500 (JError (message err)))
      | None => ret (res_json 200 (nullable JUser user))
      end
  end.

(** [p.user?.id !== userId] *)
Definition other_than (userId : string) (p : Participant.t) : bool :=
  match Participant.user p with
  | Some u => negb (User.id u =? userId)
  | None => true
  end.

(** [p.user.username], a TypeError when the joined user is [null]. *)
Definition participant_username (p : Participant.t) : outcome string :=
  match Participant.user p with
  | Some u => Done (User.username u)
  | None =>
      Thrown (TypeError "Cannot read properties of null (reading 'username')")
  end.

(** [chat.name || (otherParticipants.length > 0
      ? otherParticipants.map(p => p.user.username).join(', ') : 'New Chat')] *)
Definition chatName (userId : string) (chat : Chat.t) : outcome string :=
  let otherParticipants :=
    List.filter (other_than userId) (Chat.participants chat) in
  match Chat.name chat with
  | Some (String a rest) => Done (String a rest)
  | _ =>
      if Nat.ltb 0 (List.length otherParticipants) then
        match map_throwing participant_username otherParticipants with
        | Done usernames => Done (String.concat ", " usernames)
        | Thrown x => Thrown x
        end
      else Done "New Chat"
  end.

(** The query of phase 3 for one chat. *)
Definition last_message_query (chatId : ident) : query :=
  from Messages |> select "body, created_at" |> eq_ "chat_id" chatId
    |> order "created_at" false |> limit 1.

(** The callback mapped over [chats] in GET /api/chats, after its [await]:
    [otherParticipants], [chatName], [lastMessage] and the returned object. *)
Definition merge (userId : string) (chat : Chat.t)
    (lastMessageData : option (list LastMessageData.t)) : outcome ChatSummary.t :=
  match chatName userId chat with
  | Thrown x => Thrown x
  | Done name =>
      let lastMessage :=
        match lastMessageData with
        | Some (m :: _) => Some m
        | _ => None
        end in
      Done {| ChatSummary.id := Chat.id chat;
              ChatSummary.name := name;
              ChatSummary.participants := Chat.participants chat;
              ChatSummary.lastMessage :=
                match lastMessage with
                | Some m =>
                    Some {| LastMessage.body := LastMessageData.body m;
                            LastMessage.timestamp := LastMessageData.created_at m |}
                | None => None
                end |}
  end.

(** The callback mapped over [chats]: one last-message fetch, then the
    merge. *)
Definition format_chat (userId : string) (chat : Chat.t) : async ChatSummary.t :=
  r <- await_rows (last_message_query (Chat.id chat)) last_columns ;;
  let lastMessageData := data r in
  lift (merge userId chat lastMessageData).

Definition links_query (userId : string) : query :=
  from UserChats |> select "chat_id" |> eq_ "user_id" userId.

Definition chats_query (chatIds : list ident) : query :=
  from Chats |> select chat_select |> in_ "id" chatIds.

Definition null_map : thrown :=
  TypeError "Cannot read properties of null (reading 'map')".

(** The [try] block of GET /api/chats: membership, chats with participants,
    one last-message fetch per chat, merge. *)
Definition listChatsForUser (userId : string) : async response :=
  r1 <- await_rows (links_query userId) link_columns ;;
  match error r1 with
  | Some chatLinksError => throw (StoreError chatLinksError)
  | None =>
      match data r1 with
      | None => throw null_map
      | Some userChatLinks =>
          let chatIds := map Link.chat_id userChatLinks in
          if Nat.eqb (List.length chatIds) 0 then
            ret (res_json 200 (JChats []))
          else
            r2 <- await_rows (chats_query chatIds) chat_columns ;;
            match error r2 with
            | Some chatsError => throw (StoreError chatsError)
            | None =>
                match data r2 with
                | None => throw null_map
                | Some chats =>
                    formattedChats <-
                      promise_all (map (format_chat userId) chats) ;;
                    ret (res_json 200 (JChats formattedChats))
                end
            end
      end
  end.

(** The [catch] block of GET /api/chats. *)
Definition aggregate_failure (err : thrown) : async response :=
  ret (res_json 500 (JError (thrown_message err))).

(** GET /api/chats.  [userId] is [req.query.userId]; [!userId] holds when it
    is missing or empty. *)
Definition get_api_chats (userId : option string) : async response :=
  match userId with
  | None | Some EmptyString =>
      ret (res_json 400 (JError "User ID is required"))
  | Some userId => try_catch (listChatsForUser userId) aggregate_failure
  end.

(** GET /api/chats/:chatId *)
Definition chat_query (chatId : string) : query :=
  from Chats |> select chat_select |> eq_ "id" chatId.

Definition get_api_chat (chatId : string) : async response :=
  r <- await_single (chat_query chatId) chat_columns ;;
  match error r with
  | Some err => ret (res_json 500 (JError (message err)))
  | None =>
      match data r with
      | None => ret (res_json 404 (JError "Chat not found"))
      | Some data => ret (res_json 200 (JChat data))
      end
  end.

(** GET /api/chats/:chatId/messages *)
Definition messages_query (chatId : string) : query :=
  from Messages |> select message_select |> eq_ "chat_id" chatId
    |> order "created_at" true.

Definition get_api_chat_messages (chatId : string) : async response :=
  r <- await_rows (messages_query chatId) message_columns ;;
  match error r with
  | Some err => ret (res_json 500 (JError (message err)))
  | None => ret (res_json 200 (nullable JMessages (data r)))
  end.

(** GET /api/messages/:messageId *)
Definition message_query (messageId : string) : query :=
  from Messages |> select message_select |> eq_ "id" messageId.

Definition get_api_message (messageId : string) : async response :=
  r <- await_single (message_query messageId) message_columns ;;
  match error r with
  | Some err => ret (res_json 500 (JError (message err)))
  | None =>
      match data r with
      | None => ret (res_json 404 (JError "Message not found"))
      | Some data => ret (res_json 200 (JMessage data))
      end
  end.

(** ** A sample store

    User u1 is in chat c1 (unnamed, with u2) and chat c2 (named Team, with u2
    and u3); c1 has two messages, c2 none. *)

Definition sample_db : database :=
  {| users_rows :=
       [ {| u_id := "u1"; u_username := "ann" |};
         {| u_id := "u2"; u_username := "bob" |};
         {| u_id := "u3"; u_username := "cy" |} ];
     chats_rows :=
       [ {| c_id := "c1"; c_name := None |};
         {| c_id := "c2"; c_name := Some "Team" |} ];
     user_chats_rows :=
       [ {| l_user_id := "u1"; l_chat_id := "c1" |};
         {| l_user_id := "u2"; l_chat_id := "c1" |};
         {| l_user_id := "u1"; l_chat_id := "c2" |};
         {| l_user_id := "u2"; l_chat_id := "c2" |};
         {| l_user_id := "u3"; l_chat_id := "c2" |} ];
     messages_rows :=
       [ {| m_id := "m1"; m_chat_id := "c1"; m_sender_id := "u1";
            m_body := "hi"; m_created_at := 1%Z |};
         {| m_id := "m2"; m_chat_id := "c1"; m_sender_id := "u2";
            m_body := "yo"; m_created_at := 2%Z |} ] |}.

Definition healthy : nat -> query -> option fault := fun _ _ => None.

Definition sample_ids (n : nat) : ident :=
  String (ascii_of_nat (65 + n)) "-generated".

Definition sample : client :=
  {| tables := sample_db; journal := []; oracle := healthy; idgen := sample_ids |}.

(** * Vocabulary of the properties *)

Unset Implicit Arguments.

(** The membership rows of a user: what [.eq('user_id', userId)] keeps. *)
Definition memberships (d : database) (userId : ident) : list link_row :=
  List.filter (fun l => l_user_id l =? userId) (user_chats_rows d).

(** The stored chats whose id is in a given set: what [.in('id', chatIds)]
    keeps. *)
Definition chats_among (d : database) (chatIds : list ident) : list chat_row :=
  List.filter (fun c => existsb (fun v => c_id c =? v) chatIds) (chats_rows d).

(** The stored messages of a chat: what [.eq('chat_id', chatId)] keeps. *)
Definition messages_in (d : database) (chatId : ident) : list message_row :=
  List.filter (fun m => m_chat_id m =? chatId) (messages_rows d).

(** [created_at] descending and ascending, as row comparisons. *)
Definition newer_first (a b : message_row) : bool :=
  Z.leb (m_created_at b) (m_created_at a).

Definition older_first (a b : message_row) : bool :=
  Z.leb (m_created_at a) (m_created_at b).

(** The sender embedded in a message is the users row its [sender_id] points
    at, reduced to its username. *)
Definition sender_expanded (d : database) (m : Message.t) : Prop :=
  match Message.sender m with
  | Some sd =>
      exists u, In u (users_rows d) /\ u_id u = Message.sender_id m
                /\ Sender.username sd = u_username u
  | None => forall u, In u (users_rows d) -> u_id u <> Message.sender_id m
  end.

(** The message a failed query leaves the handler with: that of the error
    result, or that of the rejection. *)
Definition fault_message (f : fault) : string :=
  match f with
  | Fail e => message e
  | Reject x => thrown_message x
  end.

(** A store error that is not the not-found code. *)
Definition outage : pg_error :=
  {| message := "connection refused"; code := "08006" |}.

(** The sample store with the membership query failing. *)
Definition sample_links_down : client :=
  {| tables := sample_db; journal := [];
     oracle := fun n q => if Nat.eqb n 0 then Some (Fail outage) else None;
     idgen := sample_ids |}.

(** The insert of POST /api/login, as journalled. *)
Definition insert_user_query (username : string) : query :=
  from Users |> insert [("username", username)] |> select "id, username"
    |> single.

(** The stored users of a given name: what [.eq('username', username)]
    keeps. *)
Definition users_named (d : database) (username : string) : list user_row :=
  List.filter (fun u => u_username u =? username) (users_rows d).

(** The lookup of POST /api/login ends in the not-found code: the store
    answered and holds no user of that name, or it reported that code. *)
Definition lookup_not_found (s : client) (username : string) : Prop :=
  let n := List.length (journal s) in
  (oracle s n (single (login_query username)) = None
   /\ forall u, In u (users_rows (tables s)) -> u_username u <> username)
  \/ exists e, oracle s n (single (login_query username)) = Some (Fail e)
               /\ code e = "PGRST116".

(** Two client states over the same store: same tables, same oracle. *)
Definition same_store (s s' : client) : Prop :=
  tables s' = tables s /\ oracle s' = oracle s.

(** What the last-message fetch of a chat yields in a given state. *)
Definition last_fetch (s : client) (n : nat) (chatId : ident)
  : outcome (option (list LastMessageData.t)) :=
  match oracle s n (last_message_query chatId) with
  | Some (Reject x) => Thrown x
  | Some (Fail e) => Done None
  | None =>
      Done (Some (map (last_columns (tables s))
                      (run_select (last_message_query chatId) (tables s))))
  end.

(** [chatIds] of phase 1 and [chats] of phase 2 when both queries are
    answered. *)
Definition chat_ids_of (d : database) (userId : ident) : list ident :=
  map l_chat_id (memberships d userId).

Definition chats_of (d : database) (userId : ident) : list Chat.t :=
  map (chat_columns d) (chats_among d (chat_ids_of d userId)).

(** [lm] is the newest message of chat [chatId] in [d], or is absent when the
    chat has none. *)
Definition is_latest (d : database) (chatId : ident)
    (lm : option LastMessage.t) : Prop :=
  match lm with
  | None => forall m, In m (messages_rows d) -> m_chat_id m <> chatId
  | Some x =>
      exists m,
        In m (messages_rows d) /\ m_chat_id m = chatId
        /\ LastMessage.body x = m_body m
        /\ LastMessage.timestamp x = m_created_at m
        /\ forall m', In m' (messages_rows d) -> m_chat_id m' = chatId ->
                      (m_created_at m' <= m_created_at m)%Z
  end.

(** The display-name rule: a non-empty stored name wins; otherwise every
    participant carries a user, and the name is the usernames of those whose
    id differs from the requester's, joined with a comma and a space in list
    order, or New Chat when there is none. *)
Definition follows_rule (userId : string) (stored : option string)
    (ps : list Participant.t) (shown : string) : Prop :=
  match stored with
  | Some (String a rest) => shown = String a rest
  | _ =>
      exists us,
        map Participant.user ps = map Some us
        /\ match List.filter (fun u => negb (User.id u =? userId)) us with
           | [] => shown = "New Chat"
           | others => shown = String.concat ", " (map User.username others)
           end
  end.

(** Every membership row references a stored user. *)
Definition memberships_reference_users (d : database) : Prop :=
  forall lk, In lk (user_chats_rows d) ->
             exists u, In u (users_rows d) /\ u_id u = l_user_id lk.

(** The sample store with the last-message fetch of chat c1 resolving with an
    error. *)
Definition c1_fetch_fails (n : nat) (q : query) : option fault :=
  match q_table q, q_filters q with
  | Messages, [Eq _ v] => if v =? "c1" then Some (Fail outage) else None
  | _, _ => None
  end.

Definition sample_c1_fails : client :=
  {| tables := sample_db; journal := []; oracle := c1_fetch_fails;
     idgen := sample_ids |}.

(** The sample store with the last-message fetch of chat c1 rejecting. *)
Definition c1_fetch_rejects (n : nat) (q : query) : option fault :=
  match q_table q, q_filters q with
  | Messages, [Eq _ v] =>
      if v =? "c1" then Some (Reject (OtherError "fetch failed")) else None
  | _, _ => None
  end.

Definition sample_c1_rejects : client :=
  {| tables := sample_db; journal := []; oracle := c1_fetch_rejects;
     idgen := sample_ids |}.

(** ** POST /api/chats/:chatId/messages *)

(** The row the store creates for an inserted message: generated id,
    [created_at] defaulting to the store's clock. *)
Definition new_message (fresh : ident) (now : timestamp)
    (fields : list (string * string)) : message_row :=
  {| m_id := fresh; m_chat_id := field fields "chat_id";
     m_sender_id := field fields "sender_id"; m_body := field fields "body";
     m_created_at := now |}.

Definition add_message (r : message_row) (d : database) : database :=
  {| users_rows := users_rows d; chats_rows := chats_rows d;
     user_chats_rows := user_chats_rows d;
     messages_rows := messages_rows d ++ [r] |}.

Definition insert_message_query (fields : list (string * string)) : query :=
  from Messages |> insert fields |> select message_select |> single.

(** [await supabase.from('messages').insert([fields]).select(cols).single()];
    [now] is the store's clock when the row is written. *)
Definition await_insert_message (now : timestamp)
    (fields : list (string * string)) : async (pg_result Message.t) :=
  fun s =>
    let q := insert_message_query fields in
    match oracle s (List.length (journal s)) q with
    | Some (Reject x) => (Thrown x, issued q s)
    | Some (Fail e) => (Done {| data := None; error := Some e |}, issued q s)
    | None =>
        let r := new_message (idgen s (List.length (journal s))) now fields in
        let d := add_message r (tables s) in
        (Done {| data := Some (message_columns d r); error := None |},
         issued q (with_tables s d))
    end.

(** POST /api/chats/:chatId/messages.  [sender_id] and [body] are the fields
    of [req.body]. *)
Definition post_api_chat_message (now : timestamp) (chatId : string)
    (sender_id body : string) : async response :=
  r <- await_insert_message now
         [("chat_id", chatId); ("sender_id", sender_id); ("body", body)] ;;
  match error r with
  | Some err => ret (res_json 500 (JError (message err)))
  | None => ret (res_json 201 (nullable JMessage (data r)))
  end.

(** ** Further vocabulary *)

(** [Promise.all] over settled tasks: the values, or the rejection of the
    earliest task that rejected. *)
Fixpoint settle {A : Type} (rs : list (outcome A)) : outcome (list A) :=
  match rs with
  | [] => Done []
  | r :: rest =>
      match r, settle rest with
      | Done a, Done l => Done (a :: l)
      | Thrown x, _ => Thrown x
      | Done _, Thrown x => Thrown x
      end
  end.

(** The merge of every chat of the user, each last-message fetch being
    answered from the tables. *)
Definition merged (d : database) (userId : ident)
  : list (outcome ChatSummary.t) :=
  map (fun c =>
         merge userId c
           (Some (map (last_columns d)
                      (run_select (last_message_query (Chat.id c)) d))))
      (chats_of d userId).

(** The response of GET /api/chats over a store that answers every query,
    as a function of the tables. *)
Definition chat_list (d : database) (userId : ident) : response :=
  match chat_ids_of d userId with
  | [] => res_json 200 (JChats [])
  | _ :: _ =>
      match settle (merged d userId) with
      | Done l => res_json 200 (JChats l)
      | Thrown x => res_json 500 (JError (thrown_message x))
      end
  end.

(** The user has a membership row in the chat. *)
Definition member (d : database) (userId chatId : ident) : bool :=
  existsb (fun lk => (l_user_id lk =? userId) && (l_chat_id lk =? chatId))
          (user_chats_rows d).

(** The stored name is null or empty. *)
Definition unnamed (c : chat_row) : bool :=
  match c_name c with
  | Some (String _ _) => false
  | _ => true
  end.

(** The chat has a membership row whose user is not stored. *)
Definition dangling (d : database) (chatId : ident) : bool :=
  existsb (fun lk => (l_chat_id lk =? chatId)
                     && match find_user d (l_user_id lk) with
                        | Some _ => false
                        | None => true
                        end)
          (user_chats_rows d).

(** [chat.name] is null or empty. *)
Definition falsy_name (o : option string) : Prop :=
  match o with
  | Some (String _ _) => False
  | _ => True
  end.

(** The TypeError of [p.user.username] on a participant without user. *)
Definition null_username : thrown :=
  TypeError "Cannot read properties of null (reading 'username')".

(** The sample store with a membership of chat c1 whose user is not
    stored. *)
Definition sample_dangling_db : database :=
  {| users_rows := users_rows sample_db; chats_rows := chats_rows sample_db;
     user_chats_rows :=
       user_chats_rows sample_db ++ [{| l_user_id := "u7"; l_chat_id := "c1" |}];
     messages_rows := messages_rows sample_db |}.

Definition sample_dangling : client :=
  {| tables := sample_dangling_db; journal := []; oracle := healthy;
     idgen := sample_ids |}.

(** The sample store with two users of the same name. *)
Definition sample_twins_db : database :=
  {| users_rows :=
       users_rows sample_db ++ [{| u_id := "u4"; u_username := "ann" |}];
     chats_rows := chats_rows sample_db;
     user_chats_rows := user_chats_rows sample_db;
     messages_rows := messages_rows sample_db |}.

Definition sample_twins : client :=
  {| tables := sample_twins_db; journal := []; oracle := healthy;
     idgen := sample_ids |}.

(** * Properties *)

(** ** What each query of the handlers selects *)

Lemma run_links d userId :
  run_select (links_query userId) d = memberships d userId.
Proof.
  unfold run_select, memberships; simpl.
  apply filter_ext; intros l; simpl.
  now rewrite andb_true_r.
Qed.

Lemma run_chats d chatIds :
  run_select (chats_query chatIds) d = chats_among d chatIds.
Proof.
  unfold run_select, chats_among; simpl.
  apply filter_ext; intros c; simpl.
  now rewrite andb_true_r.
Qed.

Lemma matching_chat_id rows chatId :
  matching Messages [Eq "chat_id" chatId] rows
  = List.filter (fun m => m_chat_id m =? chatId) rows.
Proof.
  apply filter_ext; intros m; simpl.
  now rewrite andb_true_r.
Qed.

Lemma run_last d chatId :
  run_select (last_message_query chatId) d
  = firstn 1 (sort_by Messages newer_first (messages_in d chatId)).
Proof.
  change (run_select (last_message_query chatId) d)
    with (firstn 1 (sort_by Messages newer_first
                      (matching Messages [Eq "chat_id" chatId] (messages_rows d)))).
  now rewrite matching_chat_id.
Qed.

Lemma run_messages d chatId :
  run_select (messages_query chatId) d
  = sort_by Messages older_first (messages_in d chatId).
Proof.
  change (run_select (messages_query chatId) d)
    with (sort_by Messages older_first
            (matching Messages [Eq "chat_id" chatId] (messages_rows d))).
  now rewrite matching_chat_id.
Qed.

(** ** Ordering of rows *)

Section Sorting.
Variable t : table.
Variable leb : row t -> row t -> bool.
Hypothesis leb_total : forall a b, leb a b = true \/ leb b a = true.
Hypothesis leb_trans : forall a b c, leb a b = true -> leb b c = true -> leb a c = true.

Lemma place_perm x l : Permutation (place t leb x l) (x :: l).
Proof.
  induction l as [|y l IH]; simpl.
  - apply Permutation_refl.
  - destruct (leb x y).
    + apply Permutation_refl.
    + eapply perm_trans; [apply perm_skip, IH | apply perm_swap].
Qed.

Lemma sort_by_perm l : Permutation (sort_by t leb l) l.
Proof.
  induction l as [|x l IH]; simpl.
  - constructor.
  - eapply perm_trans; [apply place_perm | now apply perm_skip].
Qed.

Lemma place_sorted x l :
  StronglySorted (fun a b => leb a b = true) l ->
  StronglySorted (fun a b => leb a b = true) (place t leb x l).
Proof.
  induction 1 as [|y l Hs IH Hall]; simpl.
  - repeat constructor.
  - destruct (leb x y) eqn:E.
    + constructor.
      * now constructor.
      * constructor; [exact E|].
        eapply Forall_impl; [|exact Hall].
        intros z Hz. now apply leb_trans with y.
    + constructor; [exact IH|].
      assert (Hyx : leb y x = true)
        by (destruct (leb_total x y); [congruence | assumption]).
      eapply Permutation_Forall; [apply Permutation_sym, place_perm|].
      now constructor.
Qed.

Lemma sort_by_sorted l :
  StronglySorted (fun a b => leb a b = true) (sort_by t leb l).
Proof.
  induction l as [|x l IH]; simpl.
  - constructor.
  - now apply place_sorted.
Qed.

Lemma sort_by_head h rest l :
  sort_by t leb l = h :: rest ->
  In h l /\ forall x, In x l -> leb h x = true.
Proof.
  intros E.
  pose proof (sort_by_perm l) as P.
  pose proof (sort_by_sorted l) as S.
  rewrite E in P, S.
  split.
  - eapply Permutation_in; [exact P | now left].
  - intros x Hx.
    apply Permutation_sym in P.
    apply (Permutation_in _ P) in Hx.
    destruct Hx as [<-|Hx].
    + destruct (leb_total h h); assumption.
    + inversion S as [|? ? _ Hall]; subst.
      rewrite Forall_forall in Hall. now apply Hall.
Qed.

Lemma sort_by_nil l : sort_by t leb l = [] -> l = [].
Proof.
  intros E. pose proof (sort_by_perm l) as P. rewrite E in P.
  now apply Permutation_nil in P.
Qed.

End Sorting.

Lemma newer_first_total a b : newer_first a b = true \/ newer_first b a = true.
Proof. unfold newer_first. rewrite !Z.leb_le. lia. Qed.

Lemma newer_first_trans a b c :
  newer_first a b = true -> newer_first b c = true -> newer_first a c = true.
Proof. unfold newer_first. rewrite !Z.leb_le. lia. Qed.

Lemma older_first_total a b : older_first a b = true \/ older_first b a = true.
Proof. unfold older_first. rewrite !Z.leb_le. lia. Qed.

Lemma older_first_trans a b c :
  older_first a b = true -> older_first b c = true -> older_first a c = true.
Proof. unfold older_first. rewrite !Z.leb_le. lia. Qed.

Lemma StronglySorted_map {A B} (f : A -> B) (R : B -> B -> Prop) l :
  StronglySorted (fun a b => R (f a) (f b)) l -> StronglySorted R (map f l).
Proof.
  induction 1 as [|a l Hs IH Hall]; simpl; constructor; auto.
  rewrite Forall_map. exact Hall.
Qed.

Lemma StronglySorted_weaken {A} (R R' : A -> A -> Prop) l :
  (forall a b, R a b -> R' a b) -> StronglySorted R l -> StronglySorted R' l.
Proof.
  intros HR. induction 1 as [|a l Hs IH Hall]; constructor; auto.
  eapply Forall_impl; [|exact Hall]. intros b. apply HR.
Qed.

Lemma find_user_spec d uid :
  match find_user d uid with
  | Some u => In u (users_rows d) /\ u_id u = uid
  | None => forall u, In u (users_rows d) -> u_id u <> uid
  end.
Proof.
  unfold find_user.
  destruct (find _ _) as [u|] eqn:E.
  - apply find_some in E. now rewrite String.eqb_eq in E.
  - intros u Hu. apply (find_none _ _ E) in Hu.
    now rewrite String.eqb_neq in Hu.
Qed.

(** ** GET /api/chats/:chatId/messages *)

(** C9.  When the store answers the query, GET /api/chats/:chatId/messages
    responds 200 with exactly the messages of that chat (a permutation of the
    stored rows whose chat_id is the path parameter), in ascending
    created_at order, each carrying the username of its sender. *)
Theorem chat_messages_ascending (s : client) (chatId : string) :
  oracle s (List.length (journal s)) (messages_query chatId) = None ->
  exists l,
    get_api_chat_messages chatId s
    = (Done (res_json 200 (JMessages l)), issued (messages_query chatId) s)
    /\ Permutation l
         (map (message_columns (tables s))
              (List.filter (fun m => m_chat_id m =? chatId)
                           (messages_rows (tables s))))
    /\ StronglySorted
         (fun a b => (Message.created_at a <= Message.created_at b)%Z) l
    /\ Forall (sender_expanded (tables s)) l.
Proof.
  intros H.
  unfold get_api_chat_messages, bind, await_rows. rewrite H. simpl.
  rewrite run_messages.
  eexists; split; [reflexivity|].
  split; [|split].
  - apply Permutation_map.
    exact (sort_by_perm Messages older_first (messages_in (tables s) chatId)).
  - apply StronglySorted_map. simpl.
    eapply StronglySorted_weaken;
      [|apply (sort_by_sorted Messages older_first
                older_first_total older_first_trans)].
    intros a b Hab. apply Z.leb_le. exact Hab.
  - rewrite Forall_map, Forall_forall. intros m _.
    unfold sender_expanded; simpl.
    pose proof (find_user_spec (tables s) (m_sender_id m)) as F.
    destruct (find_user (tables s) (m_sender_id m)) as [u|]; simpl.
    + exists u. tauto.
    + exact F.
Qed.

Lemma chat_messages_ascending_witness :
  exists l,
    get_api_chat_messages "c1" sample
    = (Done (res_json 200 (JMessages l)), issued (messages_query "c1") sample)
    /\ Permutation l
         (map (message_columns (tables sample))
              (List.filter (fun m => m_chat_id m =? "c1")
                           (messages_rows (tables sample))))
    /\ StronglySorted
         (fun a b => (Message.created_at a <= Message.created_at b)%Z) l
    /\ Forall (sender_expanded (tables sample)) l.
Proof. apply (chat_messages_ascending sample "c1"). reflexivity. Defined.

(** ** GET /api/chats: membership and chat phases *)

Lemma get_api_chats_some userId :
  userId <> "" ->
  get_api_chats (Some userId)
  = try_catch (listChatsForUser userId) aggregate_failure.
Proof. destruct userId; [congruence | reflexivity]. Qed.

Lemma memberships_none d userId :
  (forall l, In l (user_chats_rows d) -> l_user_id l <> userId) ->
  memberships d userId = [].
Proof.
  unfold memberships. intros H.
  induction (user_chats_rows d) as [|l ls IH]; simpl; [reflexivity|].
  destruct (l_user_id l =? userId) eqn:E.
  - apply String.eqb_eq in E. exfalso. apply (H l); [now left | exact E].
  - apply IH. intros l' Hl'. apply H. now right.
Qed.

Lemma link_chat_ids d (ls : list link_row) :
  map Link.chat_id (map (link_columns d) ls) = map l_chat_id ls.
Proof. rewrite map_map. reflexivity. Qed.

Lemma issued_length q s :
  List.length (journal (issued q s)) = S (List.length (journal s)).
Proof. simpl. rewrite length_app, Nat.add_comm. reflexivity. Qed.

Lemma listChatsForUser_run userId s :
  listChatsForUser userId s
  = let n := List.length (journal s) in
    let s1 := issued (links_query userId) s in
    match oracle s n (links_query userId) with
    | Some (Reject x) => (Thrown x, s1)
    | Some (Fail e) => (Thrown (StoreError e), s1)
    | None =>
        match chat_ids_of (tables s) userId with
        | [] => (Done (res_json 200 (JChats [])), s1)
        | chatIds =>
            let s2 := issued (chats_query chatIds) s1 in
            match oracle s (S n) (chats_query chatIds) with
            | Some (Reject x) => (Thrown x, s2)
            | Some (Fail e) => (Thrown (StoreError e), s2)
            | None =>
                match promise_all
                        (map (format_chat userId) (chats_of (tables s) userId))
                        s2 with
                | (Done l, s3) => (Done (res_json 200 (JChats l)), s3)
                | (Thrown x, s3) => (Thrown x, s3)
                end
            end
        end
    end.
Proof.
  cbv zeta.
  unfold listChatsForUser. unfold bind at 1. unfold await_rows at 1.
  destruct (oracle s (List.length (journal s)) (links_query userId))
    as [[e|x]|]; try reflexivity.
  cbv beta iota delta [error data].
  rewrite run_links, link_chat_ids.
  unfold chats_of. fold (chat_ids_of (tables s) userId).
  destruct (chat_ids_of (tables s) userId) as [|c cs]; [reflexivity|].
  change (Nat.eqb (List.length (c :: cs)) 0) with false. cbv iota.
  unfold bind at 1. unfold await_rows at 1.
  rewrite issued_length.
  change (oracle (issued (links_query userId) s)) with (oracle s).
  destruct (oracle s (S (List.length (journal s))) (chats_query (c :: cs)))
    as [[e|x]|]; try reflexivity.
  cbv beta iota delta [error data].
  change (tables (issued (links_query userId) s)) with (tables s).
  rewrite run_chats.
  unfold bind.
  destruct (promise_all _ _) as [[l|x] s3]; reflexivity.
Qed.

(** C5.  For a user without membership rows, once the membership query is
    answered the handler responds 200 with the empty sequence, and the only
    query issued is the membership query: the journal grows by that one
    entry, so no chat query and no message query is sent. *)
Theorem no_memberships_short_circuit (s : client) (userId : string) :
  userId <> "" ->
  (forall l, In l (user_chats_rows (tables s)) -> l_user_id l <> userId) ->
  oracle s (List.length (journal s)) (links_query userId) = None ->
  get_api_chats (Some userId) s
  = (Done (res_json 200 (JChats [])),
     with_journal s (journal s ++ [links_query userId])).
Proof.
  intros Hid Hnone Hok.
  rewrite (get_api_chats_some _ Hid).
  unfold try_catch, listChatsForUser, bind, await_rows.
  rewrite Hok. simpl.
  rewrite run_links, (memberships_none _ _ Hnone). reflexivity.
Qed.

Lemma no_memberships_short_circuit_witness :
  get_api_chats (Some "u9") sample
  = (Done (res_json 200 (JChats [])),
     with_journal sample (journal sample ++ [links_query "u9"])).
Proof.
  apply (no_memberships_short_circuit sample "u9").
  - discriminate.
  - simpl. intros l H.
    repeat (destruct H as [<-|H]; [discriminate|]). destruct H.
  - reflexivity.
Defined.

(** C4.  A failed membership query, or a failed chats query after a
    non-empty membership result, ends the request with a single 500 whose
    body is the error envelope carrying the store's message: no chat data is
    part of the response, and no message query has been issued.  A query
    fails by resolving with an error or by rejecting. *)
Theorem early_phase_failure_aborts (s : client) (userId : string) (f : fault) :
  userId <> "" ->
  let n := List.length (journal s) in
  let chatIds := map l_chat_id (memberships (tables s) userId) in
  oracle s n (links_query userId) = Some f
  \/ (oracle s n (links_query userId) = None
      /\ chatIds <> []
      /\ oracle s (S n) (chats_query chatIds) = Some f) ->
  fst (get_api_chats (Some userId) s)
  = Done (res_json 500 (JError (fault_message f)))
  /\ exists qs,
       journal (snd (get_api_chats (Some userId) s)) = journal s ++ qs
       /\ Forall (fun q => q_table q <> Messages) qs.
Proof.
  intros Hid n chatIds H.
  rewrite (get_api_chats_some _ Hid).
  unfold try_catch. rewrite listChatsForUser_run. cbv zeta. fold n.
  destruct H as [H1 | (H1 & Hne & H2)]; rewrite H1.
  - assert (Hq : Forall (fun q => q_table q <> Messages) [links_query userId])
      by (repeat constructor; discriminate).
    destruct f as [e|x]; simpl; (split; [reflexivity|]);
      exists [links_query userId]; (split; [reflexivity | exact Hq]).
  - fold (chat_ids_of (tables s) userId) in chatIds.
    fold chatIds.
    destruct chatIds as [|c cs] eqn:Ec; [congruence|].
    rewrite H2.
    assert (Hq : Forall (fun q => q_table q <> Messages)
                   [links_query userId; chats_query (c :: cs)])
      by (repeat constructor; discriminate).
    destruct f as [e|x]; simpl; (split; [reflexivity|]);
      exists [links_query userId; chats_query (c :: cs)];
      rewrite <- app_assoc; (split; [reflexivity | exact Hq]).
Qed.

Lemma early_phase_failure_aborts_witness :
  fst (get_api_chats (Some "u1") sample_links_down)
  = Done (res_json 500 (JError "connection refused"))
  /\ exists qs,
       journal (snd (get_api_chats (Some "u1") sample_links_down)) = [] ++ qs
       /\ Forall (fun q => q_table q <> Messages) qs.
Proof.
  apply (early_phase_failure_aborts sample_links_down "u1" (Fail outage)).
  - discriminate.
  - left. reflexivity.
Defined.

(** ** GET /api/chats/:chatId and GET /api/messages/:messageId *)

(** C7.  On the sample store, which answers every query, there is no chat
    c9 and no message m9; both lookups end in 500 with the store's
    no-rows message, where a 404 is documented. *)
Theorem missing_row_answers_500 :
  (forall c, In c (chats_rows sample_db) -> c_id c <> "c9")
  /\ fst (get_api_chat "c9" sample)
     = Done (res_json 500
               (JError "JSON object requested, multiple (or no) rows returned"))
  /\ (forall m, In m (messages_rows sample_db) -> m_id m <> "m9")
  /\ fst (get_api_message "m9" sample)
     = Done (res_json 500
               (JError "JSON object requested, multiple (or no) rows returned")).
Proof.
  repeat split; try reflexivity; simpl; intros x H;
    repeat (destruct H as [<-|H]; [discriminate|]); destruct H.
Qed.

(** ** POST /api/login *)

Lemma run_login d username :
  run_select (login_query username) d = users_named d username.
Proof.
  unfold run_select, users_named; simpl.
  apply filter_ext; intros u; simpl.
  now rewrite andb_true_r.
Qed.

Lemma post_api_login_some username :
  username <> "" ->
  post_api_login (Some username)
  = (r <- await_single (login_query username) user_columns ;;
     match error r with
     | Some err =>
         if code err =? "PGRST116" then
           r' <- await_insert_user [("username", username)] "id, username" ;;
           match error r' with
           | Some newUserError =>
               ret (res_json 500 (JError (message newUserError)))
           | None => ret (res_json 200 (nullable JUser (data r')))
           end
         else ret (res_json 500 (JError (message err)))
     | None => ret (res_json 200 (nullable JUser (data r)))
     end).
Proof. destruct username; [congruence | reflexivity]. Qed.

Lemma users_named_none d username :
  (forall u, In u (users_rows d) -> u_username u <> username) ->
  users_named d username = [].
Proof.
  unfold users_named. intros H.
  induction (users_rows d) as [|u us IH]; simpl; [reflexivity|].
  destruct (u_username u =? username) eqn:E.
  - apply String.eqb_eq in E. exfalso. apply (H u); [now left | exact E].
  - apply IH. intros u' Hu'. apply H. now right.
Qed.

(** C8.  POST /api/login: 400 without a username (missing or empty); an existing user is
    returned with 200; a lookup ending in the not-found code inserts the user
    and returns the created row with 200, or 500 with the insert's message
    when the insert fails; any other lookup error is a 500 with its
    message. *)
Theorem login_cases (s : client) (username : string) :
  username <> "" ->
  let n := List.length (journal s) in
  let lookup := single (login_query username) in
  let creation := insert_user_query username in
  (* username missing or empty *)
  (post_api_login None s
   = (Done (res_json 400 (JError "Username is required")), s)
   /\ post_api_login (Some "") s
      = (Done (res_json 400 (JError "Username is required")), s))
  (* lookup succeeds *)
  /\ (forall u,
        oracle s n lookup = None ->
        users_named (tables s) username = [u] ->
        post_api_login (Some username) s
        = (Done (res_json 200
                   (JUser {| User.id := u_id u; User.username := u_username u |})),
           issued lookup s))
  (* not found, insert succeeds *)
  /\ (lookup_not_found s username ->
      oracle s (S n) creation = None ->
      let created := {| u_id := idgen s (S n); u_username := username |} in
      post_api_login (Some username) s
      = (Done (res_json 200
                 (JUser {| User.id := idgen s (S n); User.username := username |})),
         issued creation
           (with_tables (issued lookup s) (add_user created (tables s)))))
  (* not found, insert fails *)
  /\ (forall e',
        lookup_not_found s username ->
        oracle s (S n) creation = Some (Fail e') ->
        post_api_login (Some username) s
        = (Done (res_json 500 (JError (message e'))),
           issued creation (issued lookup s)))
  (* any other lookup error *)
  /\ (forall e,
        oracle s n lookup = Some (Fail e) ->
        code e <> "PGRST116" ->
        post_api_login (Some username) s
        = (Done (res_json 500 (JError (message e))), issued lookup s)).
Proof.
  intros Hname n lookup creation.
  assert (Hnf : lookup_not_found s username ->
                exists e, await_single (login_query username) user_columns s
                          = (Done {| data := None; error := Some e |},
                             issued lookup s)
                          /\ code e = "PGRST116").
  { unfold lookup_not_found, await_single. cbv zeta.
    intros [[Hok Habs] | (e & Hf & Hc)].
    - rewrite Hok, run_login, (users_named_none _ _ Habs).
      exists no_rows. split; reflexivity.
    - rewrite Hf. exists e. split; [reflexivity | exact Hc]. }
  assert (Hlen : List.length (journal (issued lookup s)) = S n).
  { simpl. rewrite length_app, Nat.add_comm. reflexivity. }
  split; [split; reflexivity|].
  rewrite (post_api_login_some _ Hname).
  split; [|split; [|split]].
  - intros u Hok Hu.
    unfold bind, await_single. cbv zeta. fold lookup. fold n.
    rewrite Hok, run_login, Hu. reflexivity.
  - intros Hlook Hins created.
    destruct (Hnf Hlook) as (e & He & Hc).
    unfold bind at 1. rewrite He. cbv beta iota delta [error]. rewrite Hc.
    change ("PGRST116" =? "PGRST116") with true. cbv iota.
    unfold bind, await_insert_user. cbv zeta. fold (insert_user_query username).
    fold creation. rewrite Hlen.
    change (oracle (issued lookup s)) with (oracle s). rewrite Hins. reflexivity.
  - intros e' Hlook Hins.
    destruct (Hnf Hlook) as (e & He & Hc).
    unfold bind at 1. rewrite He. cbv beta iota delta [error]. rewrite Hc.
    change ("PGRST116" =? "PGRST116") with true. cbv iota.
    unfold bind, await_insert_user. cbv zeta. fold (insert_user_query username).
    fold creation. rewrite Hlen.
    change (oracle (issued lookup s)) with (oracle s). rewrite Hins. reflexivity.
  - intros e Hf Hc.
    unfold bind, await_single. cbv zeta. fold lookup. fold n.
    rewrite Hf. simpl.
    apply String.eqb_neq in Hc. rewrite Hc. reflexivity.
Qed.

Lemma login_cases_witness :
  post_api_login (Some "zed") sample
  = (Done (res_json 200
             (JUser {| User.id := "B-generated"; User.username := "zed" |})),
     issued (insert_user_query "zed")
       (with_tables (issued (single (login_query "zed")) sample)
          (add_user {| u_id := "B-generated"; u_username := "zed" |} sample_db)))
  /\ post_api_login (Some "ann") sample
     = (Done (res_json 200 (JUser {| User.id := "u1"; User.username := "ann" |})),
        issued (single (login_query "ann")) sample).
Proof.
  split.
  - apply (login_cases sample "zed"); [discriminate | | reflexivity].
    left. split; [reflexivity|].
    simpl. intros u H.
    repeat (destruct H as [<-|H]; [discriminate|]). destruct H.
  - refine (proj1 (proj2 (login_cases sample "ann" _))
                   {| u_id := "u1"; u_username := "ann" |} _ _);
      [discriminate | reflexivity | reflexivity].
Defined.

(** ** GET /api/chats: the fan-out *)

Lemma same_store_refl s : same_store s s.
Proof. split; reflexivity. Qed.

Lemma same_store_trans s1 s2 s3 :
  same_store s1 s2 -> same_store s2 s3 -> same_store s1 s3.
Proof. intros [A B] [C D]. split; congruence. Qed.

Lemma format_chat_run userId chat s :
  format_chat userId chat s
  = (match last_fetch s (List.length (journal s)) (Chat.id chat) with
     | Thrown x => Thrown x
     | Done lastMessageData => merge userId chat lastMessageData
     end,
     issued (last_message_query (Chat.id chat)) s).
Proof.
  unfold format_chat, bind, await_rows, last_fetch, lift.
  destruct (oracle s _ _) as [[e|x]|]; reflexivity.
Qed.

Lemma format_chat_same_store userId chat s :
  same_store s (snd (format_chat userId chat s)).
Proof. rewrite format_chat_run. split; reflexivity. Qed.

Lemma promise_all_same_store userId chats :
  forall s, same_store s (snd (promise_all (map (format_chat userId) chats) s)).
Proof.
  induction chats as [|c cs IH]; intros s; simpl.
  - apply same_store_refl.
  - pose proof (format_chat_same_store userId c s) as H1.
    destruct (format_chat userId c s) as [r s1]. simpl in H1.
    specialize (IH s1).
    destruct (promise_all (map (format_chat userId) cs) s1) as [rs s2].
    simpl in *. eapply same_store_trans; eassumption.
Qed.

(** A fulfilled fan-out: every chat was merged, in order, in some state over
    the same store. *)
Lemma promise_all_done userId chats :
  forall s l s',
    promise_all (map (format_chat userId) chats) s = (Done l, s') ->
    Forall2 (fun c sm => exists s1, same_store s s1
                                    /\ fst (format_chat userId c s1) = Done sm)
            chats l.
Proof.
  induction chats as [|c cs IH]; intros s l s'; simpl.
  - intros [= <- <-]. constructor.
  - pose proof (format_chat_same_store userId c s) as H1.
    destruct (format_chat userId c s) as [r s1] eqn:E1. simpl in H1.
    destruct (promise_all (map (format_chat userId) cs) s1) as [rs s2] eqn:E2.
    destruct r as [a|x]; [|discriminate].
    destruct rs as [l'|x]; [|discriminate].
    intros [= <- <-].
    constructor.
    + exists s. split; [apply same_store_refl | now rewrite E1].
    + eapply Forall2_impl; [|exact (IH _ _ _ E2)].
      intros c' sm (s3 & H3 & H4). exists s3. split; [|exact H4].
      eapply same_store_trans; eassumption.
Qed.

(** A fan-out whose every task fulfils, fulfils. *)
Lemma promise_all_fulfils userId chats :
  forall s,
    (forall c s1, In c chats -> same_store s s1 ->
                  exists sm, fst (format_chat userId c s1) = Done sm) ->
    exists l, fst (promise_all (map (format_chat userId) chats) s) = Done l.
Proof.
  induction chats as [|c cs IH]; intros s H; simpl.
  - now exists [].
  - pose proof (format_chat_same_store userId c s) as H1.
    destruct (H c s (or_introl eq_refl) (same_store_refl s)) as (sm & Hsm).
    destruct (format_chat userId c s) as [r s1]. simpl in *. subst r.
    destruct (IH s1) as (l & Hl).
    { intros c' s2 Hc' Hs2. apply H; [now right|].
      eapply same_store_trans; eassumption. }
    destruct (promise_all (map (format_chat userId) cs) s1) as [rs s2].
    simpl in *. subst rs. now exists (sm :: l).
Qed.

(** A fan-out with a task that rejects, rejects. *)
Lemma promise_all_rejects userId chats :
  forall s c,
    In c chats ->
    (forall s1, same_store s s1 ->
                exists x, fst (format_chat userId c s1) = Thrown x) ->
    exists x, fst (promise_all (map (format_chat userId) chats) s) = Thrown x.
Proof.
  induction chats as [|c0 cs IH]; intros s c Hin H; simpl; [destruct Hin|].
  pose proof (format_chat_same_store userId c0 s) as H1.
  destruct (format_chat userId c0 s) as [r s1] eqn:E1. simpl in H1.
  destruct (promise_all (map (format_chat userId) cs) s1) as [rs s2] eqn:E2.
  simpl.
  destruct r as [a|x]; [|now exists x].
  destruct Hin as [->|Hin].
  - destruct (H s (same_store_refl s)) as (x & Hx).
    rewrite E1 in Hx. discriminate.
  - destruct (IH s1 c Hin) as (x & Hx).
    { intros s3 Hs3. apply H. eapply same_store_trans; eassumption. }
    rewrite E2 in Hx. simpl in Hx. subst rs. now exists x.
Qed.

(** ** GET /api/chats: the whole run *)

Lemma Forall2_In_r {A B} (P : A -> B -> Prop) l l' b :
  Forall2 P l l' -> In b l' -> exists a, In a l /\ P a b.
Proof.
  induction 1 as [|a0 b0 l l' H0 H IH]; simpl; [tauto|].
  intros [<-|Hb].
  - exists a0. auto.
  - destruct (IH Hb) as (a & Ha & Pa). exists a. auto.
Qed.

(** A 200 response lists one summary per chat of the user, each the merge of
    that chat in a state over the same store. *)
Lemma get_api_chats_200 s userId l s' :
  get_api_chats (Some userId) s = (Done (res_json 200 (JChats l)), s') ->
  Forall2 (fun c sm => exists s1, same_store s s1
                                  /\ fst (format_chat userId c s1) = Done sm)
          (chats_of (tables s) userId) l.
Proof.
  destruct userId as [|a u]; [discriminate|].
  rewrite get_api_chats_some by discriminate.
  unfold try_catch. rewrite listChatsForUser_run. cbv zeta.
  set (uid := String a u).
  destruct (oracle s _ (links_query uid)) as [[e|x]|]; try discriminate.
  unfold chats_of.
  destruct (chat_ids_of (tables s) uid) as [|c cs] eqn:Eids.
  - intros [= <- <-]. unfold chats_among. simpl.
    induction (chats_rows (tables s)); simpl; [constructor | assumption].
  - destruct (oracle s _ (chats_query (c :: cs))) as [[e|x]|]; try discriminate.
    destruct (promise_all _ _) as [[l0|x] s3] eqn:E; [|discriminate].
    intros [= <- <-].
    apply promise_all_done in E.
    eapply Forall2_impl; [|exact E].
    intros c' sm (s1 & Hs1 & Hf). exists s1. split; [|exact Hf].
    eapply same_store_trans; [|exact Hs1].
    split; reflexivity.
Qed.

(** What a fulfilled callback returned. *)
Lemma format_chat_done userId c s1 sm :
  fst (format_chat userId c s1) = Done sm ->
  ChatSummary.id sm = Chat.id c
  /\ ChatSummary.participants sm = Chat.participants c
  /\ chatName userId c = Done (ChatSummary.name sm)
  /\ exists lastMessageData,
       last_fetch s1 (List.length (journal s1)) (Chat.id c) = Done lastMessageData
       /\ ChatSummary.lastMessage sm
          = match lastMessageData with
            | Some (m :: _) =>
                Some {| LastMessage.body := LastMessageData.body m;
                        LastMessage.timestamp := LastMessageData.created_at m |}
            | _ => None
            end.
Proof.
  rewrite format_chat_run. simpl.
  destruct (last_fetch s1 _ _) as [lmd|x]; [|discriminate].
  unfold merge.
  destruct (chatName userId c) as [name|x]; [|discriminate].
  intros [= <-]. simpl.
  repeat split.
  exists lmd. split; [reflexivity|].
  destruct lmd as [[|m ms]|]; reflexivity.
Qed.

Lemma filter_nil_none {A} (f : A -> bool) l :
  List.filter f l = [] -> forall a, In a l -> f a = false.
Proof.
  induction l as [|x l IH]; simpl; [tauto|].
  destruct (f x) eqn:E; [discriminate|].
  intros H a [<-|Ha]; auto.
Qed.

(** ** C1: the last message *)

Lemma latest_of_fetch d chatId :
  is_latest d chatId
    match map (last_columns d) (run_select (last_message_query chatId) d) with
    | m :: _ =>
        Some {| LastMessage.body := LastMessageData.body m;
                LastMessage.timestamp := LastMessageData.created_at m |}
    | [] => None
    end.
Proof.
  rewrite run_last.
  destruct (sort_by Messages newer_first (messages_in d chatId))
    as [|h rest] eqn:E; simpl.
  - apply sort_by_nil in E.
    intros m Hm Hc.
    pose proof (filter_nil_none _ _ E m Hm) as F. simpl in F.
    apply String.eqb_neq in F. contradiction.
  - destruct (sort_by_head Messages newer_first
                newer_first_total newer_first_trans _ _ _ E) as [Hin Hmax].
    unfold messages_in in Hin. apply filter_In in Hin.
    destruct Hin as [Hin Hc]. apply String.eqb_eq in Hc.
    exists h. repeat split; auto.
    intros m' Hm' Hc'.
    apply Z.leb_le. apply (Hmax m').
    unfold messages_in. apply filter_In. split; [exact Hm'|].
    now apply String.eqb_eq.
Qed.

(** The [k]-th value of a fulfilled fan-out comes from the [k]-th task, run
    after [k] earlier fetches were issued. *)
Lemma promise_all_nth userId chats :
  forall s l s',
    promise_all (map (format_chat userId) chats) s = (Done l, s') ->
    forall k sm,
      nth_error l k = Some sm ->
      exists c s1,
        same_store s s1
        /\ List.length (journal s1) = List.length (journal s) + k
        /\ fst (format_chat userId c s1) = Done sm.
Proof.
  induction chats as [|c cs IH]; intros s l s'; simpl.
  - intros [= <- <-] [|k] sm; discriminate.
  - pose proof (format_chat_same_store userId c s) as H1.
    pose proof (format_chat_run userId c s) as R.
    destruct (format_chat userId c s) as [r s1] eqn:E1. simpl in H1.
    destruct (promise_all (map (format_chat userId) cs) s1) as [rs s2] eqn:E2.
    destruct r as [a|x]; [|discriminate].
    destruct rs as [l'|x]; [|discriminate].
    intros [= <- <-] [|k] sm; simpl.
    + intros [= <-]. exists c, s.
      split; [apply same_store_refl|]. split; [lia | now rewrite E1].
    + intros Hk. destruct (IH _ _ _ E2 k sm Hk) as (c' & s3 & H3 & Hlen & Hf).
      exists c', s3. split; [eapply same_store_trans; eassumption|].
      split; [|exact Hf].
      injection R as _ ->. rewrite Hlen, issued_length. lia.
Qed.

(** The [k]-th summary of a 200 response is the merge of a chat whose fetch
    was the query issued after the membership query, the chats query and
    [k] earlier fetches. *)
Lemma get_api_chats_200_nth s userId l s' k sm :
  get_api_chats (Some userId) s = (Done (res_json 200 (JChats l)), s') ->
  nth_error l k = Some sm ->
  exists c s1,
    same_store s s1
    /\ List.length (journal s1) = List.length (journal s) + 2 + k
    /\ fst (format_chat userId c s1) = Done sm.
Proof.
  destruct userId as [|a u]; [discriminate|].
  rewrite get_api_chats_some by discriminate.
  unfold try_catch. rewrite listChatsForUser_run. cbv zeta.
  set (uid := String a u).
  destruct (oracle s _ (links_query uid)) as [[e|x]|]; try discriminate.
  destruct (chat_ids_of (tables s) uid) as [|c cs] eqn:Eids.
  - intros [= <- <-]. destruct k; discriminate.
  - destruct (oracle s _ (chats_query (c :: cs))) as [[e|x]|]; try discriminate.
    destruct (promise_all _ _) as [[l0|x] s3] eqn:E; [|discriminate].
    intros [= <- <-] Hk.
    destruct (promise_all_nth _ _ _ _ _ E k sm Hk) as (c' & s1 & [Ht Ho] & Hlen & Hf).
    exists c', s1. split; [split; [exact Ht | exact Ho]|]. split; [|exact Hf].
    rewrite Hlen, !issued_length. lia.
Qed.

(** Against C1 as worded: on the sample store with the fetch of chat c1
    resolving with an error, the request is answered 200, chat c1 is in the
    response and has two stored messages, yet its lastMessage is null. *)
Lemma failed_fetch_hides_last_message :
  exists l sm,
    fst (get_api_chats (Some "u1") sample_c1_fails)
    = Done (res_json 200 (JChats l))
    /\ In sm l
    /\ ChatSummary.id sm = "c1"
    /\ ChatSummary.lastMessage sm = None
    /\ List.length (messages_in (tables sample_c1_fails) "c1") = 2
    /\ ~ is_latest (tables sample_c1_fails) (ChatSummary.id sm)
           (ChatSummary.lastMessage sm).
Proof.
  eexists. eexists. split; [reflexivity|].
  split; [left; reflexivity|]. simpl.
  split; [reflexivity|]. split; [reflexivity|]. split; [reflexivity|].
  intros H.
  apply (H {| m_id := "m1"; m_chat_id := "c1"; m_sender_id := "u1";
              m_body := "hi"; m_created_at := 1%Z |}); [now left | reflexivity].
Qed.

(** C1, as the handler has it.  In a 200 response of GET /api/chats the
    fetch of the [k]-th summary is the query issued after the membership
    query, the chats query and [k] earlier fetches.  When the store answered
    that fetch, the summary has as lastMessage the body and created_at of a
    message of that chat which no other message of the chat exceeds in
    created_at, and has no lastMessage exactly when the chat has no
    messages.  When that fetch resolved with an error, lastMessage is null
    whatever the chat holds; the fetches of the other chats do not matter. *)
Theorem answered_fetch_gives_latest (s s' : client) (userId : string)
    (l : list ChatSummary.t) (k : nat) (sm : ChatSummary.t) :
  get_api_chats (Some userId) s = (Done (res_json 200 (JChats l)), s') ->
  nth_error l k = Some sm ->
  match oracle s (List.length (journal s) + 2 + k)
          (last_message_query (ChatSummary.id sm)) with
  | None => is_latest (tables s) (ChatSummary.id sm) (ChatSummary.lastMessage sm)
  | Some _ => ChatSummary.lastMessage sm = None
  end.
Proof.
  intros Hrun Hk.
  destruct (get_api_chats_200_nth _ _ _ _ _ _ Hrun Hk)
    as (c & s1 & [Ht Ho] & Hlen & Hf).
  apply format_chat_done in Hf.
  destruct Hf as (Hid & _ & _ & lmd & Hfetch & Hlast).
  unfold last_fetch in Hfetch. rewrite Ho, Hlen, <- Hid in Hfetch.
  destruct (oracle s _ _) as [[e|x]|].
  - injection Hfetch as <-. exact Hlast.
  - discriminate.
  - injection Hfetch as <-. rewrite Hlast, Hid, Ht.
    apply latest_of_fetch.
Qed.

Lemma answered_fetch_gives_latest_witness :
  is_latest sample_db "c1"
    (Some {| LastMessage.body := "yo"; LastMessage.timestamp := 2%Z |})
  /\ is_latest sample_db "c2" None.
Proof.
  pose (r := get_api_chats (Some "u1") sample).
  pose (r' := get_api_chats (Some "u1") sample_c1_fails).
  split.
  - exact (answered_fetch_gives_latest sample (snd r) "u1" _ 0
             {| ChatSummary.id := "c1"; ChatSummary.name := "bob";
                ChatSummary.participants := participants_of sample_db "c1";
                ChatSummary.lastMessage :=
                  Some {| LastMessage.body := "yo";
                          LastMessage.timestamp := 2%Z |} |}
             eq_refl eq_refl).
  - exact (answered_fetch_gives_latest sample_c1_fails (snd r') "u1" _ 1
             {| ChatSummary.id := "c2"; ChatSummary.name := "Team";
                ChatSummary.participants := participants_of sample_db "c2";
                ChatSummary.lastMessage := None |}
             eq_refl eq_refl).
Defined.

(** ** C2 and C6: names and participants *)

(** Every chat the handler merges is a stored chat the user has a membership
    row for. *)
Lemma chats_of_origin d userId c :
  In c (chats_of d userId) ->
  exists r lk,
    In r (chats_rows d) /\ c = chat_columns d r
    /\ In lk (user_chats_rows d)
    /\ l_user_id lk = userId /\ l_chat_id lk = c_id r.
Proof.
  unfold chats_of, chats_among, chat_ids_of, memberships.
  rewrite in_map_iff. intros (r & <- & Hr).
  apply filter_In in Hr. destruct Hr as [Hr Hex].
  apply existsb_exists in Hex. destruct Hex as (v & Hv & Heq).
  apply String.eqb_eq in Heq.
  apply in_map_iff in Hv. destruct Hv as (lk & <- & Hlk).
  apply filter_In in Hlk. destruct Hlk as [Hlk Hu].
  apply String.eqb_eq in Hu.
  exists r, lk. repeat split; auto.
Qed.

Lemma other_usernames userId ps :
  forall names,
    map_throwing participant_username (List.filter (other_than userId) ps)
    = Done names ->
    exists us,
      map Participant.user ps = map Some us
      /\ map User.username
           (List.filter (fun u => negb (User.id u =? userId)) us) = names.
Proof.
  induction ps as [|[[u|]] ps IH]; intros names; simpl.
  - intros [= <-]. now exists [].
  - unfold other_than at 1. simpl.
    destruct (negb (User.id u =? userId)) eqn:E; simpl.
    + destruct (map_throwing _ _) as [ns|x]; [|discriminate].
      intros [= <-].
      destruct (IH ns eq_refl) as (us & Hus & Hns).
      exists (u :: us). simpl. rewrite E. simpl. split; congruence.
    + intros H. destruct (IH names H) as (us & Hus & Hns).
      exists (u :: us). simpl. rewrite E. split; congruence.
  - discriminate.
Qed.

Lemma chatName_rule userId c shown :
  chatName userId c = Done shown ->
  follows_rule userId (Chat.name c) (Chat.participants c) shown.
Proof.
  unfold chatName, follows_rule.
  assert (H : (if Nat.ltb 0 (List.length
                    (List.filter (other_than userId) (Chat.participants c)))
               then
                 match map_throwing participant_username
                         (List.filter (other_than userId) (Chat.participants c))
                 with
                 | Done usernames => Done (String.concat ", " usernames)
                 | Thrown x => Thrown x
                 end
               else Done "New Chat") = Done shown ->
              exists us,
                map Participant.user (Chat.participants c) = map Some us
                /\ match List.filter (fun u => negb (User.id u =? userId)) us with
                   | [] => shown = "New Chat"
                   | o :: os =>
                       shown = String.concat ", " (map User.username (o :: os))
                   end).
  { destruct (List.filter (other_than userId) (Chat.participants c))
      as [|p ps] eqn:E.
    - simpl. intros [= <-].
      destruct (other_usernames userId (Chat.participants c) []) as (us & Hus & Hn).
      { rewrite E. reflexivity. }
      exists us. split; [exact Hus|].
      destruct (List.filter _ us); [reflexivity | discriminate].
    - change (Nat.ltb 0 (List.length (p :: ps))) with true. cbv iota.
      destruct (map_throwing participant_username (p :: ps)) as [ns|x] eqn:En;
        [|discriminate].
      intros [= <-].
      destruct (other_usernames userId (Chat.participants c) ns) as (us & Hus & Hn).
      { rewrite E. exact En. }
      exists us. split; [exact Hus|].
      destruct (List.filter _ us) as [|o os] eqn:Eo.
      + simpl in Hn. subst ns. simpl in En.
        destruct (participant_username p); [|discriminate].
        destruct (map_throwing participant_username ps); discriminate.
      + now rewrite <- Hn. }
  destruct (Chat.name c) as [[|a rest]|]; auto.
  now intros [= <-].
Qed.

(** C2.  Every chat summary of a 200 response of GET /api/chats is the
    summary of a stored chat, and its name follows the display-name rule for
    that chat's stored name, its participant list and the requesting
    userId. *)
Theorem display_name_rule (s s' : client) (userId : string)
    (l : list ChatSummary.t) (sm : ChatSummary.t) :
  get_api_chats (Some userId) s = (Done (res_json 200 (JChats l)), s') ->
  In sm l ->
  exists c,
    In c (chats_rows (tables s)) /\ c_id c = ChatSummary.id sm
    /\ follows_rule userId (c_name c)
         (participants_of (tables s) (c_id c)) (ChatSummary.name sm).
Proof.
  intros Hrun Hin.
  apply get_api_chats_200 in Hrun.
  destruct (Forall2_In_r _ _ _ _ Hrun Hin) as (c & Hc & s1 & _ & Hf).
  apply format_chat_done in Hf. destruct Hf as (Hid & _ & Hname & _).
  apply chats_of_origin in Hc. destruct Hc as (r & _ & Hr & -> & _).
  exists r. split; [exact Hr|]. split; [now rewrite Hid|].
  apply (chatName_rule _ _ _ Hname).
Qed.

Lemma display_name_rule_witness :
  exists c,
    In c (chats_rows sample_db) /\ c_id c = "c1"
    /\ follows_rule "u1" (c_name c) (participants_of sample_db (c_id c)) "bob".
Proof.
  pose (r := get_api_chats (Some "u1") sample).
  refine (display_name_rule sample (snd r) "u1" _
            {| ChatSummary.id := "c1"; ChatSummary.name := "bob";
               ChatSummary.participants := participants_of sample_db "c1";
               ChatSummary.lastMessage :=
                 Some {| LastMessage.body := "yo";
                         LastMessage.timestamp := 2%Z |} |}
            eq_refl _).
  left. reflexivity.
Defined.

(** C6.  In every chat summary of a 200 response of GET /api/chats the
    participants are all membership rows of the chat, each with its user
    embedded as id and username; the row of the requesting user is among
    them. *)
Theorem participants_preserved (s s' : client) (userId : string)
    (l : list ChatSummary.t) (sm : ChatSummary.t) :
  get_api_chats (Some userId) s = (Done (res_json 200 (JChats l)), s') ->
  In sm l ->
  let d := tables s in
  ChatSummary.participants sm
  = map (fun lk => {| Participant.user :=
                        option_map (fun u => {| User.id := u_id u;
                                                User.username := u_username u |})
                                   (find_user d (l_user_id lk)) |})
        (List.filter (fun lk => l_chat_id lk =? ChatSummary.id sm)
                     (user_chats_rows d))
  /\ In {| l_user_id := userId; l_chat_id := ChatSummary.id sm |}
        (user_chats_rows d)
  /\ In {| Participant.user :=
             option_map (fun u => {| User.id := u_id u;
                                     User.username := u_username u |})
                        (find_user d userId) |}
        (ChatSummary.participants sm)
  /\ forall p u,
       In p (ChatSummary.participants sm) -> Participant.user p = Some u ->
       exists r, In r (users_rows d)
                 /\ u_id r = User.id u /\ u_username r = User.username u.
Proof.
  intros Hrun Hin d.
  apply get_api_chats_200 in Hrun.
  destruct (Forall2_In_r _ _ _ _ Hrun Hin) as (c & Hc & s1 & _ & Hf).
  apply format_chat_done in Hf. destruct Hf as (Hid & Hps & _).
  apply chats_of_origin in Hc.
  destruct Hc as (r & lk & Hr & -> & Hlk & Hu & Hlc).
  simpl in Hid, Hps. fold d in Hlk, Hps.
  assert (Hall : ChatSummary.participants sm
                 = participants_of d (ChatSummary.id sm)) by congruence.
  assert (Hlk' : In {| l_user_id := userId; l_chat_id := ChatSummary.id sm |}
                    (user_chats_rows d)).
  { destruct lk as [lu lc]. simpl in *. congruence. }
  split; [exact Hall|]. split; [exact Hlk'|]. split.
  - rewrite Hall. unfold participants_of.
    apply in_map_iff.
    exists {| l_user_id := userId; l_chat_id := ChatSummary.id sm |}.
    split; [reflexivity|].
    apply filter_In. split; [exact Hlk'|]. simpl. apply String.eqb_refl.
  - intros p u Hp Hpu.
    rewrite Hall in Hp. unfold participants_of in Hp.
    apply in_map_iff in Hp. destruct Hp as (lk0 & <- & _).
    simpl in Hpu.
    pose proof (find_user_spec d (l_user_id lk0)) as F.
    destruct (find_user d (l_user_id lk0)) as [r0|]; [|discriminate].
    injection Hpu as <-. exists r0. simpl. tauto.
Qed.

Lemma participants_preserved_witness :
  let sm :=
    {| ChatSummary.id := "c1"; ChatSummary.name := "bob";
       ChatSummary.participants := participants_of sample_db "c1";
       ChatSummary.lastMessage :=
         Some {| LastMessage.body := "yo"; LastMessage.timestamp := 2%Z |} |} in
  In {| l_user_id := "u1"; l_chat_id := "c1" |} (user_chats_rows sample_db)
  /\ In {| Participant.user :=
             Some {| User.id := "u1"; User.username := "ann" |} |}
        (ChatSummary.participants sm).
Proof.
  intros sm.
  pose (r := get_api_chats (Some "u1") sample).
  pose proof (participants_preserved sample (snd r) "u1" _ sm eq_refl
                (or_introl eq_refl)) as (_ & H1 & H2 & _).
  split; [exact H1 | exact H2].
Defined.

(** ** C10 and C3: failing last-message fetches *)

Lemma chatName_total userId c :
  (forall p, In p (Chat.participants c) -> Participant.user p <> None) ->
  exists shown, chatName userId c = Done shown.
Proof.
  intros H. unfold chatName.
  assert (Hn : exists ns,
             map_throwing participant_username
               (List.filter (other_than userId) (Chat.participants c)) = Done ns).
  { induction (Chat.participants c) as [|p ps IH]; simpl; [now exists []|].
    destruct IH as (ns & Hns); [intros q Hq; apply H; now right|].
    destruct (other_than userId p); [|now exists ns].
    simpl. unfold participant_username at 1.
    destruct (Participant.user p) as [u|] eqn:E.
    - rewrite Hns. now eexists.
    - exfalso. apply (H p); [now left | exact E]. }
  destruct Hn as (ns & ->).
  destruct (Chat.name c) as [[|a rest]|]; try (now eexists);
    destruct (Nat.ltb _ _); now eexists.
Qed.

Lemma chat_columns_users d r :
  memberships_reference_users d ->
  forall p, In p (Chat.participants (chat_columns d r)) ->
            Participant.user p <> None.
Proof.
  intros Href p Hp. simpl in Hp. unfold participants_of in Hp.
  apply in_map_iff in Hp. destruct Hp as (lk & <- & Hlk).
  apply filter_In in Hlk. destruct Hlk as [Hlk _].
  destruct (Href lk Hlk) as (u & Hu & Hid).
  simpl. pose proof (find_user_spec d (l_user_id lk)) as F.
  destruct (find_user d (l_user_id lk)); [discriminate|].
  exfalso. exact (F u Hu Hid).
Qed.

Lemma chats_among_nil d : chats_among d [] = [].
Proof.
  unfold chats_among. simpl.
  induction (chats_rows d); simpl; auto.
Qed.

Lemma Forall2_map_eq {A B C} (f : A -> C) (g : B -> C) l l' :
  Forall2 (fun a b => g b = f a) l l' -> map g l' = map f l.
Proof. induction 1; simpl; congruence. Qed.

(** C10.  When the membership and chats queries are answered, no awaited
    promise rejects and every membership row references a stored user, GET
    /api/chats responds 200 with one summary per chat of the user, and the
    summary of every chat whose last-message fetch resolves with an error has
    lastMessage null: the error result is not looked at. *)
Theorem failed_fetch_yields_null (s : client) (userId : string) :
  userId <> "" ->
  (forall n q, q_table q <> Messages -> oracle s n q = None) ->
  (forall n q x, oracle s n q <> Some (Reject x)) ->
  memberships_reference_users (tables s) ->
  exists l s',
    get_api_chats (Some userId) s = (Done (res_json 200 (JChats l)), s')
    /\ map ChatSummary.id l = map Chat.id (chats_of (tables s) userId)
    /\ forall sm,
         In sm l ->
         (exists e, forall n,
             oracle s n (last_message_query (ChatSummary.id sm)) = Some (Fail e)) ->
         ChatSummary.lastMessage sm = None.
Proof.
  intros Hid Hearly Hnorej Href.
  assert (Hrun : exists l s',
             get_api_chats (Some userId) s
             = (Done (res_json 200 (JChats l)), s')).
  { rewrite (get_api_chats_some _ Hid).
    unfold try_catch. rewrite listChatsForUser_run. cbv zeta.
    rewrite Hearly by discriminate.
    destruct (chat_ids_of (tables s) userId) as [|c cs] eqn:Eids;
      [now eexists; eexists|].
    rewrite Hearly by discriminate.
    set (s2 := issued (chats_query (c :: cs)) (issued (links_query userId) s)).
    destruct (promise_all_fulfils userId (chats_of (tables s) userId) s2)
      as (l & Hl).
    { intros c0 s1 Hc0 [Ht Ho].
      rewrite format_chat_run. simpl.
      apply chats_of_origin in Hc0. destruct Hc0 as (r & _ & _ & -> & _).
      destruct (chatName_total userId (chat_columns (tables s) r)
                  (chat_columns_users _ r Href)) as (shown & Hshown).
      unfold last_fetch, merge. rewrite Hshown.
      destruct (oracle s1 _ _) as [[e|x]|] eqn:E; try (now eexists).
      exfalso. rewrite Ho in E. simpl in E. exact (Hnorej _ _ _ E). }
    destruct (promise_all _ s2) as [rs s3]. simpl in Hl. subst rs.
    now eexists; eexists. }
  destruct Hrun as (l & s' & Hrun).
  exists l, s'. split; [exact Hrun|].
  pose proof (get_api_chats_200 _ _ _ _ Hrun) as HF.
  split.
  - apply Forall2_map_eq.
    eapply Forall2_impl; [|exact HF].
    intros c sm (s1 & _ & Hf).
    now apply format_chat_done in Hf.
  - intros sm Hin (e & He).
    destruct (Forall2_In_r _ _ _ _ HF Hin) as (c & _ & s1 & [_ Ho] & Hf).
    apply format_chat_done in Hf.
    destruct Hf as (Hcid & _ & _ & lmd & Hfetch & ->).
    unfold last_fetch in Hfetch.
    rewrite Ho, <- Hcid, He in Hfetch.
    now injection Hfetch as <-.
Qed.

Lemma sample_references_users : memberships_reference_users sample_db.
Proof.
  intros lk H. simpl in H.
  repeat (destruct H as [<-|H];
          [first [ exists {| u_id := "u1"; u_username := "ann" |};
                   split; [simpl; tauto | reflexivity]
                 | exists {| u_id := "u2"; u_username := "bob" |};
                   split; [simpl; tauto | reflexivity]
                 | exists {| u_id := "u3"; u_username := "cy" |};
                   split; [simpl; tauto | reflexivity] ]|]).
  destruct H.
Defined.

Lemma failed_fetch_yields_null_witness :
  exists l s',
    get_api_chats (Some "u1") sample_c1_fails
    = (Done (res_json 200 (JChats l)), s')
    /\ map ChatSummary.id l = map Chat.id (chats_of sample_db "u1")
    /\ forall sm,
         In sm l ->
         (exists e, forall n,
             oracle sample_c1_fails n (last_message_query (ChatSummary.id sm))
             = Some (Fail e)) ->
         ChatSummary.lastMessage sm = None.
Proof.
  apply (failed_fetch_yields_null sample_c1_fails "u1").
  - discriminate.
  - intros n q Hq. simpl. unfold c1_fetch_fails.
    destruct (q_table q); try reflexivity. congruence.
  - intros n q x. simpl. unfold c1_fetch_fails.
    destruct (q_table q); try discriminate.
    destruct (q_filters q) as [|[c v|c vs] [|f fs]]; try discriminate.
    destruct (v =? "c1"); discriminate.
  - exact sample_references_users.
Defined.

(** Against C3 as worded: on the sample store with the fetch of chat c1
    failing, the third query
    issued is that fetch, it resolves with an error, and the request is
    answered 200 with lastMessage null for c1: the failing chat does not fail
    the request. *)
Lemma failed_fetch_does_not_abort :
  let run := get_api_chats (Some "u1") sample_c1_fails in
  nth_error (journal (snd run)) 2 = Some (last_message_query "c1")
  /\ fst (await_rows (last_message_query "c1") last_columns
            (with_journal sample_c1_fails (firstn 2 (journal (snd run)))))
     = Done {| data := None; error := Some outage |}
  /\ (exists l, fst run = Done (res_json 200 (JChats l))
                /\ map ChatSummary.lastMessage l = [None; None])
  /\ ~ (exists msg, fst run = Done (res_json 500 (JError msg))).
Proof.
  cbv zeta. split; [reflexivity|]. split; [reflexivity|]. split.
  - eexists. split; reflexivity.
  - intros (msg & H). vm_compute in H. discriminate.
Qed.

Lemma chat_ids_of_member d userId lk :
  In lk (user_chats_rows d) -> l_user_id lk = userId ->
  In (l_chat_id lk) (chat_ids_of d userId).
Proof.
  intros Hlk Hu. unfold chat_ids_of, memberships.
  apply in_map. apply filter_In. split; [exact Hlk|].
  now apply String.eqb_eq.
Qed.

Lemma chats_of_member d userId lk c :
  In lk (user_chats_rows d) -> l_user_id lk = userId ->
  In c (chats_rows d) -> c_id c = l_chat_id lk ->
  In (chat_columns d c) (chats_of d userId).
Proof.
  intros Hlk Hu Hc Hid. unfold chats_of, chats_among.
  apply in_map. apply filter_In. split; [exact Hc|].
  apply existsb_exists. exists (l_chat_id lk).
  split; [now apply chat_ids_of_member|].
  now apply String.eqb_eq.
Qed.

(** C3, as the handler has it.  When the membership and chats queries are
    answered and the last-message fetch of one chat of the user rejects, the
    request is answered by the catch block: a single 500 with an error
    envelope, whatever the other chats' fetches returned. *)
Theorem rejected_fetch_aborts (s : client) (userId : string)
    (lk : link_row) (c : chat_row) (x : thrown) :
  userId <> "" ->
  (forall n q, q_table q <> Messages -> oracle s n q = None) ->
  In lk (user_chats_rows (tables s)) -> l_user_id lk = userId ->
  In c (chats_rows (tables s)) -> c_id c = l_chat_id lk ->
  (forall n, oracle s n (last_message_query (c_id c)) = Some (Reject x)) ->
  exists msg,
    fst (get_api_chats (Some userId) s) = Done (res_json 500 (JError msg)).
Proof.
  intros Hid Hearly Hlk Hu Hc Hcid Hrej.
  rewrite (get_api_chats_some _ Hid).
  unfold try_catch. rewrite listChatsForUser_run. cbv zeta.
  rewrite Hearly by discriminate.
  pose proof (chat_ids_of_member _ _ _ Hlk Hu) as Hmem.
  destruct (chat_ids_of (tables s) userId) as [|c0 cs] eqn:Eids;
    [destruct Hmem|].
  rewrite Hearly by discriminate.
  set (s2 := issued (chats_query (c0 :: cs)) (issued (links_query userId) s)).
  destruct (promise_all_rejects userId (chats_of (tables s) userId) s2
              (chat_columns (tables s) c)) as (x' & Hx').
  - now apply chats_of_member with lk.
  - intros s1 [_ Ho]. exists x.
    rewrite format_chat_run. simpl. unfold last_fetch.
    rewrite Ho. simpl. now rewrite Hrej.
  - destruct (promise_all _ s2) as [rs s3]. simpl in Hx'. subst rs.
    now eexists.
Qed.

Lemma rejected_fetch_aborts_witness :
  exists msg,
    fst (get_api_chats (Some "u1") sample_c1_rejects)
    = Done (res_json 500 (JError msg)).
Proof.
  apply (rejected_fetch_aborts sample_c1_rejects "u1"
           {| l_user_id := "u1"; l_chat_id := "c1" |}
           {| c_id := "c1"; c_name := None |}
           (OtherError "fetch failed")).
  - discriminate.
  - intros n q Hq. simpl. unfold c1_fetch_rejects.
    destruct (q_table q); try reflexivity. congruence.
  - simpl. tauto.
  - reflexivity.
  - simpl. tauto.
  - reflexivity.
  - intros n. reflexivity.
Defined.

(** * Further properties of the handlers *)

(** ** GET /api/chats: responses, queries, order *)

Lemma promise_all_journal userId chats :
  forall s,
    journal (snd (promise_all (map (format_chat userId) chats) s))
    = journal s ++ map (fun c => last_message_query (Chat.id c)) chats.
Proof.
  induction chats as [|c cs IH]; intros s; simpl.
  - now rewrite app_nil_r.
  - rewrite format_chat_run.
    specialize (IH (issued (last_message_query (Chat.id c)) s)).
    destruct (promise_all _ _) as [rs s2]. simpl in *.
    rewrite IH, <- app_assoc. reflexivity.
Qed.

(** X1.  GET /api/chats answers every request: whatever the store does,
    the handler responds, with status 200, 400 or 500, and the status is 400
    exactly when userId is missing or empty. *)
Theorem get_api_chats_always_responds (userId : option string) (s : client) :
  exists r,
    fst (get_api_chats userId s) = Done r
    /\ (status r = 200 \/ status r = 400 \/ status r = 500)
    /\ (status r = 400 <-> userId = None \/ userId = Some "").
Proof.
  destruct userId as [[|a u]|].
  - eexists. split; [reflexivity|]. simpl. split; [auto|]. split; auto.
  - assert (Hno : ~ (Some (String a u) = None \/ Some (String a u) = Some ""))
      by (intros [H|H]; discriminate).
    rewrite get_api_chats_some by discriminate.
    unfold try_catch. rewrite listChatsForUser_run. cbv zeta.
    destruct (oracle s _ (links_query _)) as [[e|x]|];
      try (eexists; split; [reflexivity|]; simpl;
           split; [auto|]; split; [discriminate | intros H; now destruct Hno]).
    destruct (chat_ids_of _ _) as [|c cs];
      try (eexists; split; [reflexivity|]; simpl;
           split; [auto|]; split; [discriminate | intros H; now destruct Hno]).
    destruct (oracle s _ (chats_query _)) as [[e|x]|];
      try (eexists; split; [reflexivity|]; simpl;
           split; [auto|]; split; [discriminate | intros H; now destruct Hno]).
    destruct (promise_all _ _) as [[l|x] s3];
      eexists; (split; [reflexivity|]); simpl;
      (split; [auto|]); (split; [discriminate | intros H; now destruct Hno]).
  - eexists. split; [reflexivity|]. simpl. split; [auto|]. split; auto.
Qed.

(** X2.  The GET handlers only read: whatever the store answers, none of
    them changes a table. *)
Theorem reads_leave_tables (s : client) (userId : option string) (id : string) :
  tables (snd (get_api_chats userId s)) = tables s
  /\ tables (snd (get_api_chat id s)) = tables s
  /\ tables (snd (get_api_chat_messages id s)) = tables s
  /\ tables (snd (get_api_message id s)) = tables s
  /\ tables (snd (get_api_users s)) = tables s.
Proof.
  split; [|repeat split].
  - destruct userId as [[|a u]|]; try reflexivity.
    rewrite get_api_chats_some by discriminate.
    unfold try_catch. rewrite listChatsForUser_run. cbv zeta.
    destruct (oracle s _ (links_query _)) as [[e|x]|]; try reflexivity.
    destruct (chat_ids_of _ _) as [|c cs]; try reflexivity.
    destruct (oracle s _ (chats_query _)) as [[e|x]|]; try reflexivity.
    pose proof (promise_all_same_store (String a u)
                  (chats_of (tables s) (String a u))
                  (issued (chats_query (c :: cs))
                     (issued (links_query (String a u)) s))) as [Ht _].
    destruct (promise_all _ _) as [[l|x] s3]; exact Ht.
  - unfold get_api_chat, bind, await_single. cbv zeta.
    destruct (oracle s _ _) as [[e|x]|]; try reflexivity.
    destruct (as_single _) as [[v|] [e|]]; reflexivity.
  - unfold get_api_chat_messages, bind, await_rows.
    destruct (oracle s _ _) as [[e|x]|]; reflexivity.
  - unfold get_api_message, bind, await_single. cbv zeta.
    destruct (oracle s _ _) as [[e|x]|]; try reflexivity.
    destruct (as_single _) as [[v|] [e|]]; reflexivity.
  - unfold get_api_users, bind, await_rows.
    destruct (oracle s _ _) as [[e|x]|]; reflexivity.
Qed.

(** X3.  Once the membership and chats queries are answered, GET /api/chats
    issues exactly one last-message query per chat returned by the chats
    query, in that order, after the two earlier queries, whether or not
    those fetches fail. *)
Theorem one_fetch_per_chat (s : client) (userId : string) :
  userId <> "" ->
  let n := List.length (journal s) in
  let chatIds := chat_ids_of (tables s) userId in
  oracle s n (links_query userId) = None ->
  chatIds <> [] ->
  oracle s (S n) (chats_query chatIds) = None ->
  journal (snd (get_api_chats (Some userId) s))
  = journal s
    ++ [links_query userId; chats_query chatIds]
    ++ map (fun c => last_message_query (c_id c))
           (chats_among (tables s) chatIds).
Proof.
  intros Hid n chatIds H1 Hne H2.
  rewrite (get_api_chats_some _ Hid).
  unfold try_catch. rewrite listChatsForUser_run. cbv zeta.
  fold n. rewrite H1. fold chatIds.
  destruct chatIds as [|c cs] eqn:E; [congruence|].
  rewrite H2.
  pose proof (promise_all_journal userId (chats_of (tables s) userId)
                (issued (chats_query (c :: cs))
                   (issued (links_query userId) s))) as J.
  unfold chats_of in J at 2. fold chatIds in J. rewrite E in J.
  rewrite map_map in J. simpl in J.
  destruct (promise_all _ _) as [[l|x] s3]; simpl in *;
    rewrite J, <- !app_assoc; reflexivity.
Qed.

Lemma one_fetch_per_chat_witness :
  journal (snd (get_api_chats (Some "u1") sample_c1_rejects))
  = [links_query "u1"; chats_query ["c1"; "c2"];
     last_message_query "c1"; last_message_query "c2"].
Proof.
  apply (one_fetch_per_chat sample_c1_rejects "u1");
    [discriminate | reflexivity | discriminate | reflexivity].
Defined.

Lemma chat_ids_member d userId chatId :
  existsb (fun v => chatId =? v) (chat_ids_of d userId) = member d userId chatId.
Proof.
  unfold chat_ids_of, memberships, member.
  induction (user_chats_rows d) as [|lk ls IH]; simpl; [reflexivity|].
  destruct (l_user_id lk =? userId); simpl; [|exact IH].
  rewrite IH. f_equal. apply String.eqb_sym.
Qed.

(** X4.  The summaries of a 200 response of GET /api/chats are, in the
    order of the chats table, exactly the stored chats the user has a
    membership row in: a membership whose chat is not stored adds nothing,
    and repeated membership rows do not repeat a chat. *)
Theorem summaries_follow_chats_table (s s' : client) (userId : string)
    (l : list ChatSummary.t) :
  get_api_chats (Some userId) s = (Done (res_json 200 (JChats l)), s') ->
  map ChatSummary.id l
  = map c_id (List.filter (fun c => member (tables s) userId (c_id c))
                          (chats_rows (tables s))).
Proof.
  intros Hrun.
  apply get_api_chats_200 in Hrun.
  assert (E : map ChatSummary.id l = map Chat.id (chats_of (tables s) userId)).
  { apply Forall2_map_eq.
    eapply Forall2_impl; [|exact Hrun].
    intros c sm (s1 & _ & Hf). now apply format_chat_done in Hf. }
  rewrite E. unfold chats_of, chats_among. rewrite map_map. simpl.
  f_equal. apply filter_ext. intros c. apply chat_ids_member.
Qed.

Lemma summaries_follow_chats_table_witness :
  map ChatSummary.id
      match fst (get_api_chats (Some "u1") sample) with
      | Done {| status := _; body := JChats l |} => l
      | _ => []
      end
  = ["c1"; "c2"].
Proof.
  apply (summaries_follow_chats_table sample
           (snd (get_api_chats (Some "u1") sample)) "u1").
  reflexivity.
Defined.

(** ** GET /api/chats over a store that answers *)

Lemma promise_all_settle userId chats s0 :
  (forall n q, q_table q = Messages -> oracle s0 n q = None) ->
  forall s,
    same_store s0 s ->
    fst (promise_all (map (format_chat userId) chats) s)
    = settle (map (fun c =>
                     merge userId c
                       (Some (map (last_columns (tables s0))
                                  (run_select (last_message_query (Chat.id c))
                                              (tables s0)))))
                  chats).
Proof.
  intros Hok. induction chats as [|c cs IH]; intros s Hs; simpl; [reflexivity|].
  pose proof (format_chat_same_store userId c s) as H1.
  rewrite format_chat_run in *. simpl in H1.
  specialize (IH _ (same_store_trans _ _ _ Hs H1)).
  destruct (promise_all _ _) as [rs s2]. simpl in *. rewrite <- IH.
  unfold last_fetch. destruct Hs as [Ht Ho]. rewrite Ho, Ht.
  rewrite Hok by reflexivity. reflexivity.
Qed.

Lemma get_api_chats_healthy s userId :
  userId <> "" ->
  (forall n q, oracle s n q = None) ->
  fst (get_api_chats (Some userId) s) = Done (chat_list (tables s) userId).
Proof.
  intros Hid Hok.
  rewrite (get_api_chats_some _ Hid).
  unfold try_catch. rewrite listChatsForUser_run. cbv zeta.
  rewrite Hok. unfold chat_list, merged.
  destruct (chat_ids_of (tables s) userId) as [|c cs]; [reflexivity|].
  rewrite Hok.
  set (s2 := issued (chats_query (c :: cs)) (issued (links_query userId) s)).
  pose proof (promise_all_settle userId (chats_of (tables s) userId) s
                (fun n q _ => Hok n q) s2 (conj eq_refl eq_refl)) as E.
  destruct (promise_all _ s2) as [rs s3]. simpl in E. rewrite <- E.
  destruct rs; reflexivity.
Qed.

Lemma get_api_chats_same_store userId s :
  same_store s (snd (get_api_chats userId s)).
Proof.
  destruct userId as [[|a u]|]; try apply same_store_refl.
  rewrite get_api_chats_some by discriminate.
  unfold try_catch. rewrite listChatsForUser_run. cbv zeta.
  destruct (oracle s _ (links_query _)) as [[e|x]|]; try (split; reflexivity).
  destruct (chat_ids_of _ _) as [|c cs]; try (split; reflexivity).
  destruct (oracle s _ (chats_query _)) as [[e|x]|]; try (split; reflexivity).
  pose proof (promise_all_same_store (String a u)
                (chats_of (tables s) (String a u))
                (issued (chats_query (c :: cs))
                   (issued (links_query (String a u)) s))) as H.
  destruct (promise_all _ _) as [[l|x] s3]; exact H.
Qed.

(** X5.  Over a store that answers every query, asking for the chat list
    twice gives the same response: the first request leaves nothing behind
    that the second could see. *)
Theorem chat_list_repeatable (s : client) (userId : option string) :
  (forall n q, oracle s n q = None) ->
  fst (get_api_chats userId (snd (get_api_chats userId s)))
  = fst (get_api_chats userId s).
Proof.
  intros Hok.
  destruct userId as [[|a u]|]; try reflexivity.
  destruct (get_api_chats_same_store (Some (String a u)) s) as [Ht Ho].
  rewrite !get_api_chats_healthy; try discriminate; try exact Hok.
  - now rewrite Ht.
  - intros n q. rewrite Ho. apply Hok.
Qed.

Lemma chat_list_repeatable_witness :
  fst (get_api_chats (Some "u1") (snd (get_api_chats (Some "u1") sample)))
  = fst (get_api_chats (Some "u1") sample).
Proof.
  apply (chat_list_repeatable sample (Some "u1")).
  intros n q. reflexivity.
Defined.

(** ** GET /api/chats: a membership without user *)

Lemma usernames_thrown l x :
  map_throwing participant_username l = Thrown x ->
  x = null_username /\ exists p, In p l /\ Participant.user p = None.
Proof.
  induction l as [|p ps IH]; simpl; [discriminate|].
  unfold participant_username at 1.
  destruct (Participant.user p) as [u|] eqn:E.
  - destruct (map_throwing participant_username ps) as [ns|y]; [discriminate|].
    intros [= <-]. destruct (IH eq_refl) as (-> & q & Hq & Hn).
    split; [reflexivity|]. exists q. auto.
  - intros [= <-]. split; [reflexivity|]. exists p. auto.
Qed.

Lemma usernames_throw l :
  (exists p, In p l /\ Participant.user p = None) ->
  map_throwing participant_username l = Thrown null_username.
Proof.
  induction l as [|p ps IH]; intros (q & Hq & Hn); simpl; [destruct Hq|].
  unfold participant_username at 1.
  destruct (Participant.user p) as [u|] eqn:E; [|reflexivity].
  destruct Hq as [->|Hq]; [congruence|].
  rewrite IH; [reflexivity|]. exists q. auto.
Qed.

Lemma chatName_thrown userId c x :
  chatName userId c = Thrown x ->
  x = null_username /\ falsy_name (Chat.name c)
  /\ exists p, In p (Chat.participants c) /\ Participant.user p = None.
Proof.
  unfold chatName.
  assert (H : (if Nat.ltb 0 (List.length
                    (List.filter (other_than userId) (Chat.participants c)))
               then
                 match map_throwing participant_username
                         (List.filter (other_than userId) (Chat.participants c))
                 with
                 | Done usernames => Done (String.concat ", " usernames)
                 | Thrown x => Thrown x
                 end
               else Done "New Chat") = Thrown x ->
              x = null_username
              /\ exists p, In p (Chat.participants c)
                           /\ Participant.user p = None).
  { destruct (Nat.ltb _ _); [|discriminate].
    destruct (map_throwing _ _) as [ns|y] eqn:E; [discriminate|].
    intros [= <-]. apply usernames_thrown in E.
    destruct E as (-> & p & Hp & Hn). split; [reflexivity|].
    exists p. apply filter_In in Hp. tauto. }
  destruct (Chat.name c) as [[|a rest]|]; simpl; try discriminate;
    intros Hx; destruct (H Hx) as (-> & Hp); auto.
Qed.

Lemma chatName_throws userId c :
  falsy_name (Chat.name c) ->
  (exists p, In p (Chat.participants c) /\ Participant.user p = None) ->
  chatName userId c = Thrown null_username.
Proof.
  intros Hname (p & Hp & Hn). unfold chatName.
  assert (Hin : In p (List.filter (other_than userId) (Chat.participants c))).
  { apply filter_In. split; [exact Hp|]. unfold other_than. now rewrite Hn. }
  assert (Hlt : Nat.ltb 0 (List.length
                   (List.filter (other_than userId) (Chat.participants c)))
                = true).
  { destruct (List.filter _ _); [destruct Hin | reflexivity]. }
  rewrite Hlt, usernames_throw; [|now exists p].
  destruct (Chat.name c) as [[|a rest]|]; simpl in Hname; tauto.
Qed.

Lemma settle_thrown {A} (rs : list (outcome A)) x :
  settle rs = Thrown x -> In (Thrown x) rs.
Proof.
  induction rs as [|r rs IH]; simpl; [discriminate|].
  destruct r as [a|y].
  - destruct (settle rs) as [l|y]; [discriminate|].
    intros [= <-]. right. now apply IH.
  - intros [= <-]. now left.
Qed.

Lemma settle_done {A} (rs : list (outcome A)) :
  (forall x, ~ In (Thrown x) rs) -> exists l, settle rs = Done l.
Proof.
  induction rs as [|r rs IH]; intros H; simpl; [now eexists|].
  destruct r as [a|y]; [|exfalso; apply (H y); now left].
  destruct IH as (l & ->); [|now eexists].
  intros x Hx. apply (H x). now right.
Qed.

Lemma settle_throws {A} (rs : list (outcome A)) x :
  In (Thrown x) rs -> exists y, settle rs = Thrown y.
Proof.
  induction rs as [|r rs IH]; simpl; [tauto|].
  intros [->|Hx]; [now eexists|].
  destruct r as [a|y]; [|now eexists].
  destruct (IH Hx) as (y & ->). now eexists.
Qed.

Lemma dangling_participant d chatId :
  dangling d chatId = true
  <-> exists p, In p (participants_of d chatId) /\ Participant.user p = None.
Proof.
  unfold dangling, participants_of. rewrite existsb_exists. split.
  - intros (lk & Hlk & Hb). apply andb_true_iff in Hb. destruct Hb as [Hc Hf].
    eexists. split.
    + apply in_map_iff. exists lk. split; [reflexivity|].
      apply filter_In. auto.
    + simpl. destruct (find_user d (l_user_id lk)); [discriminate | reflexivity].
  - intros (p & Hp & Hn). apply in_map_iff in Hp.
    destruct Hp as (lk & <- & Hlk). apply filter_In in Hlk.
    destruct Hlk as [Hlk Hc]. exists lk. split; [exact Hlk|].
    rewrite Hc. simpl in *.
    destruct (find_user d (l_user_id lk)); [discriminate | reflexivity].
Qed.

Lemma unnamed_falsy r d :
  unnamed r = true <-> falsy_name (Chat.name (chat_columns d r)).
Proof.
  unfold unnamed, falsy_name. simpl.
  destruct (c_name r) as [[|a rest]|]; split; auto; discriminate.
Qed.

Lemma merged_thrown d userId x :
  In (Thrown x) (merged d userId) ->
  x = null_username
  /\ exists r, In r (chats_rows d) /\ member d userId (c_id r) = true
               /\ unnamed r = true /\ dangling d (c_id r) = true.
Proof.
  unfold merged. rewrite in_map_iff. intros (c & Hm & Hc).
  unfold chats_of in Hc. apply in_map_iff in Hc. destruct Hc as (r & <- & Hr).
  unfold chats_among in Hr. apply filter_In in Hr. destruct Hr as [Hr Hmem].
  rewrite chat_ids_member in Hmem.
  unfold merge in Hm.
  destruct (chatName userId (chat_columns d r)) as [nm|y] eqn:E; [discriminate|].
  injection Hm as ->.
  apply chatName_thrown in E. destruct E as (-> & Hf & Hp).
  split; [reflexivity|]. exists r. repeat split; auto.
  - now apply (unnamed_falsy r d).
  - now apply dangling_participant.
Qed.

Lemma merged_throws d userId r :
  In r (chats_rows d) -> member d userId (c_id r) = true ->
  unnamed r = true -> dangling d (c_id r) = true ->
  In (Thrown null_username) (merged d userId).
Proof.
  intros Hr Hmem Hun Hd. unfold merged. apply in_map_iff.
  exists (chat_columns d r). split.
  - unfold merge. rewrite chatName_throws; [reflexivity| |].
    + now apply unnamed_falsy.
    + now apply dangling_participant.
  - unfold chats_of. apply in_map. unfold chats_among. apply filter_In.
    split; [exact Hr|]. now rewrite chat_ids_member.
Qed.

(** X6.  Over a store that answers every query, GET /api/chats fails with
    500 and the TypeError message of reading username of null exactly when
    the user is in some chat without a stored name that has a membership row
    whose user is not stored; otherwise it answers 200.  A chat with a stored
    name tolerates such a row. *)
Theorem dangling_membership_breaks_list (s : client) (userId : string) :
  userId <> "" ->
  (forall n q, oracle s n q = None) ->
  let d := tables s in
  if existsb (fun c => member d userId (c_id c) && unnamed c
                       && dangling d (c_id c))
             (chats_rows d)
  then fst (get_api_chats (Some userId) s)
       = Done (res_json 500
                 (JError "Cannot read properties of null (reading 'username')"))
  else exists l,
         fst (get_api_chats (Some userId) s) = Done (res_json 200 (JChats l)).
Proof.
  intros Hid Hok d.
  rewrite (get_api_chats_healthy _ _ Hid Hok). fold d.
  unfold chat_list.
  destruct (existsb _ (chats_rows d)) eqn:B.
  - apply existsb_exists in B. destruct B as (r & Hr & Hb).
    apply andb_true_iff in Hb. destruct Hb as [Hb Hdang].
    apply andb_true_iff in Hb. destruct Hb as [Hmem Hun].
    destruct (chat_ids_of d userId) as [|c0 cs] eqn:Eids.
    { pose proof (chat_ids_member d userId (c_id r)) as M.
      rewrite Eids, Hmem in M. discriminate. }
    pose proof (merged_throws d userId r Hr Hmem Hun Hdang) as Hin.
    destruct (settle_throws _ _ Hin) as (y & Hy). rewrite Hy.
    apply settle_thrown, merged_thrown in Hy. destruct Hy as (-> & _).
    reflexivity.
  - destruct (chat_ids_of d userId) as [|c0 cs]; [now eexists|].
    destruct (settle_done (merged d userId)) as (l & ->); [|now eexists].
    intros x Hx. apply merged_thrown in Hx.
    destruct Hx as (_ & r & Hr & Hmem & Hun & Hdang).
    assert (T : existsb (fun c => member d userId (c_id c) && unnamed c
                                  && dangling d (c_id c)) (chats_rows d) = true).
    { apply existsb_exists. exists r. split; [exact Hr|].
      now rewrite Hmem, Hun, Hdang. }
    congruence.
Qed.

Lemma dangling_membership_breaks_list_witness :
  fst (get_api_chats (Some "u1") sample_dangling)
  = Done (res_json 500
            (JError "Cannot read properties of null (reading 'username')")).
Proof.
  apply (dangling_membership_breaks_list sample_dangling "u1").
  - discriminate.
  - intros n q. reflexivity.
Defined.

(** ** Lookups by id *)

Lemma run_chat d chatId :
  run_select (chat_query chatId) d
  = List.filter (fun c => c_id c =? chatId) (chats_rows d).
Proof.
  unfold run_select; simpl.
  apply filter_ext; intros c; simpl.
  now rewrite andb_true_r.
Qed.

Lemma run_message d messageId :
  run_select (message_query messageId) d
  = List.filter (fun m => m_id m =? messageId) (messages_rows d).
Proof.
  unfold run_select; simpl.
  apply filter_ext; intros m; simpl.
  now rewrite andb_true_r.
Qed.

(** X7.  When the store answers, GET /api/chats/:chatId responds 200 with
    the chat (id, stored name, all its membership rows with their users) if
    exactly one stored chat has that id, and 500 with the no-rows message in
    every other case, a missing chat included. *)
Theorem get_api_chat_answered (s : client) (chatId : string) :
  oracle s (List.length (journal s)) (single (chat_query chatId)) = None ->
  let d := tables s in
  fst (get_api_chat chatId s)
  = match List.filter (fun c => c_id c =? chatId) (chats_rows d) with
    | [c] =>
        Done (res_json 200
                (JChat {| Chat.id := c_id c; Chat.name := c_name c;
                          Chat.participants := participants_of d (c_id c) |}))
    | _ =>
        Done (res_json 500
                (JError "JSON object requested, multiple (or no) rows returned"))
    end.
Proof.
  intros Hok d.
  unfold get_api_chat, bind, await_single. cbv zeta. rewrite Hok.
  rewrite run_chat. fold d.
  destruct (List.filter _ (chats_rows d)) as [|c [|c' cs]]; reflexivity.
Qed.

Lemma get_api_chat_answered_witness :
  fst (get_api_chat "c2" sample)
  = Done (res_json 200
            (JChat {| Chat.id := "c2"; Chat.name := Some "Team";
                      Chat.participants := participants_of sample_db "c2" |})).
Proof.
  apply (get_api_chat_answered sample "c2"). reflexivity.
Defined.

(** X8.  When the store answers, GET /api/messages/:messageId responds 200
    with the message and its sender's username if exactly one stored message
    has that id, and 500 with the no-rows message in every other case. *)
Theorem get_api_message_answered (s : client) (messageId : string) :
  oracle s (List.length (journal s)) (single (message_query messageId)) = None ->
  let d := tables s in
  fst (get_api_message messageId s)
  = match List.filter (fun m => m_id m =? messageId) (messages_rows d) with
    | [m] =>
        Done (res_json 200
                (JMessage
                   {| Message.id := m_id m; Message.body := m_body m;
                      Message.created_at := m_created_at m;
                      Message.sender_id := m_sender_id m;
                      Message.sender :=
                        option_map
                          (fun u => {| Sender.username := u_username u |})
                          (find_user d (m_sender_id m)) |}))
    | _ =>
        Done (res_json 500
                (JError "JSON object requested, multiple (or no) rows returned"))
    end.
Proof.
  intros Hok d.
  unfold get_api_message, bind, await_single. cbv zeta. rewrite Hok.
  rewrite run_message. fold d.
  destruct (List.filter _ (messages_rows d)) as [|m [|m' ms]]; reflexivity.
Qed.

Lemma get_api_message_answered_witness :
  fst (get_api_message "m2" sample)
  = Done (res_json 200
            (JMessage
               {| Message.id := "m2"; Message.body := "yo";
                  Message.created_at := 2%Z; Message.sender_id := "u2";
                  Message.sender := Some {| Sender.username := "bob" |} |})).
Proof.
  apply (get_api_message_answered sample "m2"). reflexivity.
Defined.

(** X10.  GET /api/chats/:chatId/messages does not look the chat up: for an
    id no stored message refers to, an unknown chat included, an answering
    store gives 200 with the empty list. *)
Theorem messages_of_unknown_chat (s : client) (chatId : string) :
  oracle s (List.length (journal s)) (messages_query chatId) = None ->
  (forall m, In m (messages_rows (tables s)) -> m_chat_id m <> chatId) ->
  fst (get_api_chat_messages chatId s) = Done (res_json 200 (JMessages [])).
Proof.
  intros Hok Hnone.
  unfold get_api_chat_messages, bind, await_rows. rewrite Hok. simpl.
  rewrite run_messages.
  assert (E : messages_in (tables s) chatId = []).
  { unfold messages_in.
    induction (messages_rows (tables s)) as [|m ms IH]; simpl; [reflexivity|].
    destruct (m_chat_id m =? chatId) eqn:Em.
    - apply String.eqb_eq in Em. exfalso. apply (Hnone m); [now left | exact Em].
    - apply IH. intros m' Hm'. apply Hnone. now right. }
  rewrite E. reflexivity.
Qed.

Lemma messages_of_unknown_chat_witness :
  fst (get_api_chat_messages "c9" sample) = Done (res_json 200 (JMessages [])).
Proof.
  apply (messages_of_unknown_chat sample "c9"); [reflexivity|].
  simpl. intros m H.
  repeat (destruct H as [<-|H]; [discriminate|]). destruct H.
Defined.

(** ** POST /api/login: composition *)

Lemma as_single_other {V} (l : list V) :
  List.length l <> 1 ->
  as_single l = {| data := None; error := Some no_rows |}.
Proof. destruct l as [|v [|w l]]; simpl; congruence. Qed.

Lemma login_creates s username :
  username <> "" ->
  oracle s (List.length (journal s)) (single (login_query username)) = None ->
  List.length (users_named (tables s) username) <> 1 ->
  oracle s (S (List.length (journal s))) (insert_user_query username) = None ->
  let fresh := idgen s (S (List.length (journal s))) in
  post_api_login (Some username) s
  = (Done (res_json 200
             (JUser {| User.id := fresh; User.username := username |})),
     issued (insert_user_query username)
       (with_tables (issued (single (login_query username)) s)
          (add_user {| u_id := fresh; u_username := username |} (tables s)))).
Proof.
  intros Hname Hlook Hlen Hins fresh.
  rewrite (post_api_login_some _ Hname).
  unfold bind at 1. unfold await_single. cbv zeta.
  rewrite Hlook, run_login.
  rewrite as_single_other by (rewrite length_map; exact Hlen).
  cbv beta iota delta [error].
  change (code no_rows =? "PGRST116") with true. cbv iota.
  unfold bind, await_insert_user. cbv zeta.
  fold (insert_user_query username).
  rewrite issued_length.
  change (oracle (issued (single (login_query username)) s)) with (oracle s).
  rewrite Hins. reflexivity.
Qed.

Lemma users_named_added d username fresh :
  users_named (add_user {| u_id := fresh; u_username := username |} d) username
  = users_named d username ++ [{| u_id := fresh; u_username := username |}].
Proof.
  unfold users_named. simpl. rewrite filter_app. simpl.
  now rewrite String.eqb_refl.
Qed.

(** X11.  Over a store that answers every query, a first login under a name
    no stored user has creates the user, and a second login under the same
    name returns that same user, id included, without writing again. *)
Theorem login_twice_same_user (s : client) (username : string) :
  username <> "" ->
  (forall n q, oracle s n q = None) ->
  (forall u, In u (users_rows (tables s)) -> u_username u <> username) ->
  let first := post_api_login (Some username) s in
  let second := post_api_login (Some username) (snd first) in
  exists u,
    fst first = Done (res_json 200 (JUser u))
    /\ User.username u = username
    /\ users_rows (tables (snd first))
       = users_rows (tables s)
         ++ [{| u_id := User.id u; u_username := username |}]
    /\ fst second = Done (res_json 200 (JUser u))
    /\ tables (snd second) = tables (snd first).
Proof.
  intros Hname Hok Habs first second.
  pose proof (users_named_none _ _ Habs) as Hnone.
  assert (E1 : first = _) by
    (apply (login_creates s username Hname (Hok _ _));
     [rewrite Hnone; discriminate | apply Hok]).
  cbv zeta in E1.
  set (fresh := idgen s (S (List.length (journal s)))) in *.
  exists {| User.id := fresh; User.username := username |}.
  subst second. rewrite E1. cbn [fst snd].
  split; [reflexivity|]. split; [reflexivity|]. split; [reflexivity|].
  rewrite (post_api_login_some _ Hname).
  unfold bind, await_single. cbv zeta.
  match goal with
  | |- context [oracle ?st ?n ?q] =>
      change (oracle st n q) with (oracle s n q)
  end.
  rewrite Hok, run_login.
  match goal with
  | |- context [users_named (tables ?st) username] =>
      change (tables st)
        with (add_user {| u_id := fresh; u_username := username |} (tables s))
  end.
  rewrite users_named_added, Hnone. simpl. split; reflexivity.
Qed.

Lemma login_twice_same_user_witness :
  exists u,
    fst (post_api_login (Some "zed") sample) = Done (res_json 200 (JUser u))
    /\ User.username u = "zed"
    /\ users_rows (tables (snd (post_api_login (Some "zed") sample)))
       = users_rows sample_db ++ [{| u_id := User.id u; u_username := "zed" |}]
    /\ fst (post_api_login (Some "zed")
              (snd (post_api_login (Some "zed") sample)))
       = Done (res_json 200 (JUser u))
    /\ tables (snd (post_api_login (Some "zed")
                      (snd (post_api_login (Some "zed") sample))))
       = tables (snd (post_api_login (Some "zed") sample)).
Proof.
  apply (login_twice_same_user sample "zed").
  - discriminate.
  - intros n q. reflexivity.
  - simpl. intros u H.
    repeat (destruct H as [<-|H]; [discriminate|]). destruct H.
Defined.

(** X12.  The lookup of POST /api/login treats a name that several stored
    users share like a name nobody has: when the store answers the lookup
    and accepts the insert, the handler creates one more user of that name
    and returns the new one with 200. *)
Theorem login_shared_name_inserts (s : client) (username : string) :
  username <> "" ->
  let n := List.length (journal s) in
  oracle s n (single (login_query username)) = None ->
  2 <= List.length (List.filter (fun u => u_username u =? username)
                                (users_rows (tables s))) ->
  oracle s (S n) (insert_user_query username) = None ->
  fst (post_api_login (Some username) s)
  = Done (res_json 200
            (JUser {| User.id := idgen s (S n); User.username := username |}))
  /\ users_rows (tables (snd (post_api_login (Some username) s)))
     = users_rows (tables s)
       ++ [{| u_id := idgen s (S n); u_username := username |}].
Proof.
  intros Hname n Hlook Htwo Hins.
  rewrite (login_creates s username Hname Hlook); [|unfold users_named; lia|exact Hins].
  split; reflexivity.
Qed.

Lemma login_shared_name_inserts_witness :
  fst (post_api_login (Some "ann") sample_twins)
  = Done (res_json 200
            (JUser {| User.id := "B-generated"; User.username := "ann" |}))
  /\ users_rows (tables (snd (post_api_login (Some "ann") sample_twins)))
     = users_rows sample_twins_db
       ++ [{| u_id := "B-generated"; u_username := "ann" |}].
Proof.
  apply (login_shared_name_inserts sample_twins "ann");
    [discriminate | reflexivity | simpl; lia | reflexivity].
Defined.

(** ** POST /api/chats/:chatId/messages: composition *)

Lemma post_message_run s now chatId sender_id body :
  oracle s (List.length (journal s))
    (insert_message_query
       [("chat_id", chatId); ("sender_id", sender_id); ("body", body)]) = None ->
  let r := {| m_id := idgen s (List.length (journal s)); m_chat_id := chatId;
              m_sender_id := sender_id; m_body := body; m_created_at := now |} in
  let d := add_message r (tables s) in
  post_api_chat_message now chatId sender_id body s
  = (Done (res_json 201 (JMessage (message_columns d r))),
     issued (insert_message_query
               [("chat_id", chatId); ("sender_id", sender_id); ("body", body)])
       (with_tables s d)).
Proof.
  intros Hok r d.
  unfold post_api_chat_message, bind, await_insert_message. cbv zeta.
  rewrite Hok. reflexivity.
Qed.

(** X13.  Over a store that answers every query, a posted message is
    answered 201 with the created row (generated id, the posted chat,
    sender and body, the store's time), and GET /api/messages/:messageId
    with the returned id then responds 200 with the very same message,
    provided the generated id is not already in use. *)
Theorem posted_message_is_found (s : client) (now : timestamp)
    (chatId sender_id body : string) :
  (forall n q, oracle s n q = None) ->
  let fresh := idgen s (List.length (journal s)) in
  (forall m, In m (messages_rows (tables s)) -> m_id m <> fresh) ->
  let posted := post_api_chat_message now chatId sender_id body s in
  exists m,
    fst posted = Done (res_json 201 (JMessage m))
    /\ Message.id m = fresh /\ Message.body m = body
    /\ Message.created_at m = now /\ Message.sender_id m = sender_id
    /\ fst (get_api_message fresh (snd posted)) = Done (res_json 200 (JMessage m)).
Proof.
  intros Hok fresh Hfresh posted.
  subst posted. rewrite post_message_run by apply Hok. cbv zeta. fold fresh.
  eexists. split; [reflexivity|]. cbn [fst snd]. repeat split.
  unfold get_api_message, bind, await_single. cbv zeta.
  match goal with
  | |- context [oracle ?st ?n ?q] => change (oracle st n q) with (oracle s n q)
  end.
  rewrite Hok, run_message.
  cbn [tables issued with_journal with_tables messages_rows add_message].
  rewrite filter_app.
  assert (E : List.filter (fun m => m_id m =? fresh) (messages_rows (tables s))
              = []).
  { induction (messages_rows (tables s)) as [|m ms IH]; simpl; [reflexivity|].
    destruct (m_id m =? fresh) eqn:Em.
    - apply String.eqb_eq in Em. exfalso. apply (Hfresh m); [now left | exact Em].
    - apply IH. intros m' Hm'. apply Hfresh. now right. }
  rewrite E. simpl. rewrite String.eqb_refl. reflexivity.
Qed.

Lemma posted_message_is_found_witness :
  exists m,
    fst (post_api_chat_message 3%Z "c2" "u3" "hey" sample)
    = Done (res_json 201 (JMessage m))
    /\ Message.id m = "A-generated" /\ Message.body m = "hey"
    /\ Message.created_at m = 3%Z /\ Message.sender_id m = "u3"
    /\ fst (get_api_message "A-generated"
              (snd (post_api_chat_message 3%Z "c2" "u3" "hey" sample)))
       = Done (res_json 200 (JMessage m)).
Proof.
  apply (posted_message_is_found sample 3%Z "c2" "u3" "hey").
  - intros n q. reflexivity.
  - simpl. intros m H.
    repeat (destruct H as [<-|H]; [discriminate|]). destruct H.
Defined.

Lemma messages_in_added d r :
  messages_in (add_message r d) (m_chat_id r) = messages_in d (m_chat_id r) ++ [r].
Proof.
  unfold messages_in. simpl. rewrite filter_app. simpl.
  now rewrite String.eqb_refl.
Qed.

(** X14.  Over a store that answers every query, after a message is posted
    to a chat, GET /api/chats/:chatId/messages for that chat lists the
    created message, and lists one message more than the chat had. *)
Theorem posted_message_is_listed (s : client) (now : timestamp)
    (chatId sender_id body : string) :
  (forall n q, oracle s n q = None) ->
  let posted := post_api_chat_message now chatId sender_id body s in
  exists m l,
    fst posted = Done (res_json 201 (JMessage m))
    /\ fst (get_api_chat_messages chatId (snd posted))
       = Done (res_json 200 (JMessages l))
    /\ In m l
    /\ List.length l
       = S (List.length (List.filter (fun x => m_chat_id x =? chatId)
                                     (messages_rows (tables s)))).
Proof.
  intros Hok posted.
  subst posted. rewrite post_message_run by apply Hok. cbv zeta.
  set (r := {| m_id := idgen s (List.length (journal s)); m_chat_id := chatId;
               m_sender_id := sender_id; m_body := body; m_created_at := now |}).
  set (d := add_message r (tables s)).
  exists (message_columns d r). cbn [fst snd].
  unfold get_api_chat_messages, bind, await_rows.
  match goal with
  | |- context [oracle ?st ?n ?q] => change (oracle st n q) with (oracle s n q)
  end.
  rewrite Hok.
  cbn [tables issued with_journal with_tables]. fold d. rewrite run_messages.
  eexists. split; [reflexivity|]. split; [reflexivity|].
  pose proof (sort_by_perm Messages older_first (messages_in d chatId)) as P.
  pose proof (messages_in_added (tables s) r) as A. simpl in A. fold d in A.
  split.
  - apply in_map. apply Permutation_sym in P.
    apply (Permutation_in _ P). rewrite A. apply in_or_app. right. now left.
  - rewrite length_map.
    transitivity (List.length (messages_in d chatId));
      [exact (Permutation_length P)|].
    rewrite A, length_app. simpl. unfold messages_in. lia.
Qed.

Lemma posted_message_is_listed_witness :
  exists m l,
    fst (post_api_chat_message 3%Z "c1" "u1" "hey" sample)
    = Done (res_json 201 (JMessage m))
    /\ fst (get_api_chat_messages "c1"
              (snd (post_api_chat_message 3%Z "c1" "u1" "hey" sample)))
       = Done (res_json 200 (JMessages l))
    /\ In m l
    /\ List.length l
       = S (List.length (List.filter (fun x => m_chat_id x =? "c1")
                                     (messages_rows (tables sample)))).
Proof.
  apply (posted_message_is_listed sample 3%Z "c1" "u1" "hey").
  intros n q. reflexivity.
Defined.

(** X15.  Over a store that answers every query, after a message is posted
    to a chat at a time later than every message the chat had, each summary
    of that chat in a 200 response of GET /api/chats carries the posted body
    and time as lastMessage. *)
Theorem posted_message_becomes_last (s s' : client) (now : timestamp)
    (chatId sender_id body userId : string)
    (l : list ChatSummary.t) (sm : ChatSummary.t) :
  (forall n q, oracle s n q = None) ->
  (forall m, In m (messages_rows (tables s)) -> m_chat_id m = chatId ->
             (m_created_at m < now)%Z) ->
  get_api_chats (Some userId)
    (snd (post_api_chat_message now chatId sender_id body s))
  = (Done (res_json 200 (JChats l)), s') ->
  In sm l ->
  ChatSummary.id sm = chatId ->
  ChatSummary.lastMessage sm
  = Some {| LastMessage.body := body; LastMessage.timestamp := now |}.
Proof.
  intros Hok Hnew Hrun Hin Hid.
  rewrite post_message_run in Hrun by apply Hok. cbv zeta in Hrun.
  cbn [snd] in Hrun.
  set (r := {| m_id := idgen s (List.length (journal s)); m_chat_id := chatId;
               m_sender_id := sender_id; m_body := body; m_created_at := now |})
    in *.
  set (d := add_message r (tables s)) in *.
  apply get_api_chats_200 in Hrun.
  destruct (Forall2_In_r _ _ _ _ Hrun Hin) as (c & _ & s1 & [Ht Ho] & Hf).
  apply format_chat_done in Hf.
  destruct Hf as (Hcid & _ & _ & lmd & Hfetch & Hlast).
  unfold last_fetch in Hfetch. rewrite Ho in Hfetch. simpl in Hfetch.
  rewrite Hok in Hfetch. injection Hfetch as <-.
  rewrite Ht in Hlast. simpl tables in Hlast. fold d in Hlast.
  pose proof (latest_of_fetch d (Chat.id c)) as L.
  rewrite <- Hlast, <- Hcid, Hid in L.
  assert (Hr : In r (messages_rows d))
    by (simpl; apply in_or_app; right; now left).
  destruct (ChatSummary.lastMessage sm) as [x|]; simpl in L.
  - destruct L as (m & Hm & Hc & Hb & Hts & Hmax).
    assert (Em : m = r).
    { simpl in Hm. apply in_app_or in Hm. destruct Hm as [Hm|[<-|[]]]; [|reflexivity].
      pose proof (Hnew m Hm Hc) as Hlt.
      pose proof (Hmax r Hr eq_refl) as Hle. simpl in Hle. lia. }
    subst m. destruct x as [xb xt]. simpl in *. congruence.
  - exfalso. exact (L r Hr eq_refl).
Qed.

Lemma posted_message_becomes_last_witness :
  Some {| LastMessage.body := "hey"; LastMessage.timestamp := 3%Z |}
  = Some {| LastMessage.body := "hey"; LastMessage.timestamp := 3%Z |}.
Proof.
  pose (after := snd (post_api_chat_message 3%Z "c1" "u1" "hey" sample)).
  pose (run := get_api_chats (Some "u2") after).
  refine (posted_message_becomes_last sample (snd run) 3%Z "c1" "u1" "hey" "u2" _
            {| ChatSummary.id := "c1"; ChatSummary.name := "ann";
               ChatSummary.participants := participants_of sample_db "c1";
               ChatSummary.lastMessage :=
                 Some {| LastMessage.body := "hey";
                         LastMessage.timestamp := 3%Z |} |}
            (fun _ _ => eq_refl) _ eq_refl _ eq_refl).
  - simpl. intros m H Hc.
    repeat (destruct H as [<-|H]; [simpl; lia|]). destruct H.
  - left. reflexivity.
Defined.

(** ** GET /api/users *)

Lemma run_users d :
  run_select (from Users |> select "id, username") d = users_rows d.
Proof.
  unfold run_select; simpl.
  induction (users_rows d) as [|u us IH]; simpl; congruence.
Qed.

(** X16.  Over a store that answers every query, GET /api/users lists every
    stored user with id and username, in table order; after a login that
    created a user, the list is the earlier one followed by the user the
    login returned. *)
Theorem created_user_is_listed (s : client) (username : string) :
  username <> "" ->
  (forall n q, oracle s n q = None) ->
  (forall u, In u (users_rows (tables s)) -> u_username u <> username) ->
  let before := map (fun u => {| User.id := u_id u; User.username := u_username u |})
                    (users_rows (tables s)) in
  let login := post_api_login (Some username) s in
  fst (get_api_users s) = Done (res_json 200 (JUsers before))
  /\ exists u,
       fst login = Done (res_json 200 (JUser u))
       /\ fst (get_api_users (snd login))
          = Done (res_json 200 (JUsers (before ++ [u]))).
Proof.
  intros Hname Hok Habs before login.
  split.
  - unfold get_api_users, bind, await_rows. rewrite Hok. simpl.
    rewrite run_users. reflexivity.
  - pose proof (users_named_none _ _ Habs) as Hnone.
    assert (E1 : login = _) by
      (apply (login_creates s username Hname (Hok _ _));
       [rewrite Hnone; discriminate | apply Hok]).
    cbv zeta in E1. rewrite E1. cbn [fst snd].
    eexists. split; [reflexivity|].
    unfold get_api_users, bind, await_rows.
    match goal with
    | |- context [oracle ?st ?n ?q] => change (oracle st n q) with (oracle s n q)
    end.
    rewrite Hok.
    cbn [tables issued with_journal with_tables error data].
    rewrite run_users. simpl. unfold before.
    rewrite map_app. reflexivity.
Qed.

Lemma created_user_is_listed_witness :
  fst (get_api_users sample)
  = Done (res_json 200
            (JUsers [ {| User.id := "u1"; User.username := "ann" |};
                      {| User.id := "u2"; User.username := "bob" |};
                      {| User.id := "u3"; User.username := "cy" |} ]))
  /\ exists u,
       fst (post_api_login (Some "zed") sample) = Done (res_json 200 (JUser u))
       /\ fst (get_api_users (snd (post_api_login (Some "zed") sample)))
          = Done (res_json 200
                    (JUsers ([ {| User.id := "u1"; User.username := "ann" |};
                               {| User.id := "u2"; User.username := "bob" |};
                               {| User.id := "u3"; User.username := "cy" |} ]
                             ++ [u]))).
Proof.
  apply (created_user_is_listed sample "zed").
  - discriminate.
  - intros n q. reflexivity.
  - simpl. intros u H.
    repeat (destruct H as [<-|H]; [discriminate|]). destruct H.
Defined.
